(** * Point-in-polygon with border value (PyMca ctools)

    A shallow embedding of
    [PyMca/plotting/ctools/_ctools/src/InsidePolygonWithBounds.c]:
    the crossing-number predicate generated by the [_INSIDE_POLYGON] macro
    for the three point types, and the three batch entry points that fill
    an output buffer with one classification byte per query point.

    C [double] is IEEE binary64 and is modelled by Rocq's primitive floats;
    a C [float] is a binary32 value of [spec_float]; a C [int] is a [Z];
    an [unsigned char] is a [Z] in the range 0..255.  The counters [i] and
    [counter] never leave the range [0 .. N+1], which is taken to fit an
    [int].  A pointer to a buffer is the list of its cells; a read or a
    write outside the list is undefined behaviour in C and yields [None]
    here. *)

From Stdlib Require Import ZArith Floats Lia Bool.
From stdpp Require Import base option list.

Local Open Scope Z_scope.

(** ** The header [../include/InsidePolygonWithBounds.h]

    The header is not among the sources at hand; what the C file takes from
    it is modelled from the specification. *)

Module Header.

(** Modelled from the spec: the three point structs of the missing header,
    "an ordered pair of coordinates (x, y)", "structurally identical (two
    fields, same field order)", that "differ only in type".  [C] is the
    type of a coordinate. *)
Record PointOf (C : Type) : Type := mkPoint { x : C; y : C }.
Arguments mkPoint {C} _ _.
Arguments x {C} _.
Arguments y {C} _.

(** Modelled from the spec: [Point] of the missing header, the point with
    double-precision coordinates. *)
Definition Point : Type := PointOf float.

(** Modelled from the spec: [PointF] of the missing header, the point with
    single-precision coordinates (binary32: precision 24, emax 128). *)
Definition PointF : Type := PointOf spec_float.

(** Modelled from the spec: [PointInt] of the missing header, the point
    with integer coordinates. *)
Definition PointInt : Type := PointOf Z.

(** Modelled from the spec: the macro [MIN] of the missing header, "the
    smaller of the two edge endpoints' y", as C writes it:
    [(x < y ? x : y)]. *)
Definition MIN (a b : float) : float := if (a <? b)%float then a else b.

(** Modelled from the spec: the macro [MAX] of the missing header, "the
    larger of the two endpoints", as C writes it: [(x > y ? x : y)]. *)
Definition MAX (a b : float) : float := if (b <? a)%float then a else b.

(** Modelled from the spec: the sentinel [INSIDE] of the missing header;
    "two distinct fixed byte values (...) e.g. 1 and 0". *)
Definition INSIDE : Z := 1.

(** Modelled from the spec: the sentinel [OUTSIDE] of the missing header. *)
Definition OUTSIDE : Z := 0.

End Header.
Export Header.

(** ** Promotion of a coordinate to double

    Every use of [p.x] and [p.y] in the macro body sits in an expression
    whose other operand is a double, so C's usual arithmetic conversions
    turn the query point's coordinate into a double first. *)

Class Coord (C : Type) : Type := promote : C → float.

(** int to double: exact for every 32-bit value. *)
Definition double_of_int (z : Z) : float :=
  if z <? 0 then (- of_uint63 (Uint63.of_Z (- z)))%float
  else of_uint63 (Uint63.of_Z z).

#[global] Instance Coord_double : Coord float := fun d => d.
#[global] Instance Coord_float : Coord spec_float := SF2Prim.
#[global] Instance Coord_int : Coord Z := double_of_int.

(** [(unsigned char) v] for an int [v]: reduction modulo 256. *)
Definition to_uchar (v : Z) : Z := v mod 256.

(** ** The predicate: [_INSIDE_POLYGON(NAME, TYPE)] *)

Section InsidePolygon.
Context {C : Type} `{Coord C}.

(** [(p1.x == p.x) && (p1.y == p.y)] *)
Definition on_vertex (p1 : Point) (p : PointOf C) : bool :=
  (x p1 =? promote (x p))%float && (y p1 =? promote (y p))%float.

(** [(p.y-p1.y)*(p2.x-p1.x)/(p2.y-p1.y)+p1.x], split at the division. *)
Definition dividend (p1 p2 : Point) (p : PointOf C) : float :=
  ((promote (y p) - y p1) * (x p2 - x p1))%float.
Definition divisor (p1 p2 : Point) : float := (y p2 - y p1)%float.
Definition xinters (p1 p2 : Point) (p : PointOf C) : float :=
  (dividend p1 p2 p / divisor p1 p2 + x p1)%float.

(** The four nested [if]s of the loop body.  The result says whether
    [counter++] is reached; the list holds the divisor of every division
    that is evaluated on the way (at most one). *)
Definition edge_test (p1 p2 : Point) (p : PointOf C) : bool * list float :=
  if (MIN (y p1) (y p2) <? promote (y p))%float then
    if (promote (y p) <=? MAX (y p1) (y p2))%float then
      if (promote (x p) <=? MAX (x p1) (x p2))%float then
        if negb (y p1 =? y p2)%float then
          ((x p1 =? x p2)%float || (promote (x p) <=? xinters p1 p2 p)%float,
           [divisor p1 p2])
        else (false, [])
      else (false, [])
    else (false, [])
  else (false, []).

Definition crosses (p1 p2 : Point) (p : PointOf C) : bool :=
  fst (edge_test p1 p2 p).

(** [counter % 2 == 0 ? OUTSIDE : INSIDE]; [%] is C's remainder. *)
Definition parity_result (counter : Z) : Z :=
  if Z.rem counter 2 =? 0 then OUTSIDE else INSIDE.

(** The [for (i=1;i<=N;i++)] loop.  It runs for [i = 1, ..., N]: [n]
    counts the iterations that are left, [i] is the loop variable, [p1] the
    previous vertex, [counter] the crossings so far. *)
Fixpoint scan (polygon : list Point) (N : Z) (p : PointOf C)
    (border_value : Z) (n : nat) (i : Z) (p1 : Point) (counter : Z)
    : option Z :=
  match n with
  | O => Some (parity_result counter)
  | S n' =>
      if on_vertex p1 p then Some border_value
      else
        p2 ← (if Z.rem i N <? 0 then None
              else polygon !! Z.to_nat (Z.rem i N));
        scan polygon N p border_value n' (i + 1) p2
             (if crosses p1 p2 p then counter + 1 else counter)
  end.

Definition _INSIDE_POLYGON (polygon : list Point) (N : Z) (p : PointOf C)
    (border_value : Z) : option Z :=
  p1 ← polygon !! 0%nat;
  scan polygon N p border_value (Z.to_nat N) 1 p1 0.

End InsidePolygon.

(** [_INSIDE_POLYGON(_InsidePolygon, Point)] and its two siblings. *)
Definition _InsidePolygon := @_INSIDE_POLYGON float _.
Definition _InsidePolygonF := @_INSIDE_POLYGON spec_float _.
Definition _InsidePolygonInt := @_INSIDE_POLYGON Z _.

(** ** The batch entry points *)

(** [(Point * ) vertices], [(PointF * ) points_xy], ...: cell [k] of the
    struct array is made of the scalars [2k] and [2k+1] of the flat buffer. *)
Fixpoint as_points {C : Type} (buf : list C) : list (PointOf C) :=
  match buf with
  | a :: b :: rest => mkPoint a b :: as_points rest
  | _ => []
  end.

(** The three buffers a batch call is handed.  [stores] is a ghost field:
    the slots of [output] that were stored to, oldest first. *)
Record memory (C : Type) : Type := mkMemory {
  vertices : list float;
  points_xy : list C;
  output : list Z;
  stores : list nat
}.
Arguments mkMemory {C} _ _ _ _.
Arguments vertices {C} _.
Arguments points_xy {C} _.
Arguments output {C} _.
Arguments stores {C} _.

Section Batch.
Context {C : Type} `{Coord C}.

(** [*p = v] with [p = output + i]. *)
Definition store (i : nat) (v : Z) (m : memory C) : option (memory C) :=
  if decide (i < length (output m))%nat
  then Some (mkMemory (vertices m) (points_xy m) (<[i:=v]> (output m))
                      (stores m ++ [i]))
  else None.

(** [for (i=0; i < N_points_xy; i++) { *p = ...; p++; point++; }]: [n]
    iterations are left; [p] and [point] are [i] cells past their
    start. *)
Fixpoint batch_loop (N_vertices border : Z) (n i : nat) (m : memory C)
    : option (memory C) :=
  match n with
  | O => Some m
  | S n' =>
      point ← as_points (points_xy m) !! i;
      r ← _INSIDE_POLYGON (as_points (vertices m)) N_vertices point border;
      m' ← store i r m;
      batch_loop N_vertices border n' (S i) m'
  end.

Definition PointsInside (N_vertices N_points_xy border_value : Z)
    (m : memory C) : option (memory C) :=
  let border := to_uchar border_value in
  batch_loop N_vertices border (Z.to_nat N_points_xy) 0 m.

End Batch.

Definition PointsInsidePolygon := @PointsInside float _.
Definition PointsInsidePolygonF := @PointsInside spec_float _.
Definition PointsInsidePolygonInt := @PointsInside Z _.

(** ** Reading the loop as a count over the edges *)

(** The wrap-around edges [(v[i], v[(i+1) mod N])], [i = 0..N-1]. *)
Definition edges (polygon : list Point) : list (Point * Point) :=
  zip polygon (rotate 1 polygon).

Section Reading.
Context {C : Type} `{Coord C}.

Definition crossings_in (es : list (Point * Point)) (p : PointOf C) : nat :=
  sum_list ((λ e, if crosses e.1 e.2 p then 1%nat else 0%nat) <$> es).

Definition crossings (polygon : list Point) (p : PointOf C) : nat :=
  crossings_in (edges polygon) p.

Definition hits_vertex (polygon : list Point) (p : PointOf C) : bool :=
  existsb (λ v, on_vertex v p) polygon.

Definition classify (polygon : list Point) (p : PointOf C)
    (border_value : Z) : Z :=
  if hits_vertex polygon p then border_value
  else if Nat.even (crossings polygon p) then OUTSIDE else INSIDE.

End Reading.

(** ** The vocabulary of the specification *)

Section Specification.
Context {C : Type} `{Coord C}.

(** The test the specification gives for one edge [(p1, p2)]: the query
    point's y is above the smaller and not above the larger endpoint y,
    its x is not beyond the larger endpoint x, the edge is not horizontal,
    and the edge is vertical or the point's x is not beyond
    [xintersect]. *)
Definition counts_as_crossing (p1 p2 : Point) (p : PointOf C) : bool :=
  let px := promote (x p) in
  let py := promote (y p) in
  let xintersect :=
    ((py - y p1) * (x p2 - x p1) / (y p2 - y p1) + x p1)%float in
  (MIN (y p1) (y p2) <? py)%float
  && (py <=? MAX (y p1) (y p2))%float
  && (px <=? MAX (x p1) (x p2))%float
  && negb (y p1 =? y p2)%float
  && ((x p1 =? x p2)%float || (px <=? xintersect)%float).

(** Edge [i] of the closed polygon: [(v[i], v[(i+1) mod N])]. *)
Definition wrap_edge (polygon : list Point) (i : nat)
    : option (Point * Point) :=
  p1 ← polygon !! i;
  p2 ← polygon !! ((i + 1) mod length polygon)%nat;
  Some (p1, p2).

(** How many of the [N] wrap-around edges pass that test. *)
Definition crossing_count (polygon : list Point) (p : PointOf C) : nat :=
  sum_list
    ((λ i, match wrap_edge polygon i with
           | Some (p1, p2) =>
               if counts_as_crossing p1 p2 p then 1%nat else 0%nat
           | None => 0%nat
           end) <$> seq 0 (length polygon)).

End Specification.

(** [a == b] on doubles: equality of values, with no tolerance.  The two
    zeros are equal; a NaN equals nothing. *)
Definition same_value (a b : float) : bool := (a =? b)%float.



(** A call that respects the contract of the batch entry points: at least
    one vertex, [2 * N_vertices] doubles, [2 * N_points_xy] coordinates and
    [N_points_xy] output bytes. *)
Definition well_formed {C : Type} (m : memory C)
    (N_vertices N_points_xy : Z) : Prop :=
  1 ≤ N_vertices ∧ 0 ≤ N_points_xy
  ∧ Z.of_nat (length (vertices m)) = 2 * N_vertices
  ∧ Z.of_nat (length (points_xy m)) = 2 * N_points_xy
  ∧ Z.of_nat (length (output m)) = N_points_xy.

(** What a batch call leaves behind when it agrees, slot by slot, with the
    predicate called on each point: every point of the buffer is classified
    and stored, in index order. *)
Definition agrees_with_predicate {C : Type} `{Coord C}
    (entry : Z → Z → Z → memory C → option (memory C)) : Prop :=
  ∀ (N_vertices N_points_xy border_value : Z) (m : memory C),
    well_formed m N_vertices N_points_xy →
    ∃ m', entry N_vertices N_points_xy border_value m = Some m'
      ∧ stores m' = stores m ++ seq 0 (Z.to_nat N_points_xy)
      ∧ ∀ i : nat, (i < Z.to_nat N_points_xy)%nat →
          ∃ point r,
            as_points (points_xy m) !! i = Some point
            ∧ _INSIDE_POLYGON (as_points (vertices m)) N_vertices point
                (to_uchar border_value) = Some r
            ∧ output m' !! i = Some r.

(** What a batch call leaves behind when it writes the output buffer and
    nothing else: the two input buffers are as before, the output buffer
    has [N_points_xy] cells that all hold a byte, and the slots stored to
    are [0 .. N_points_xy - 1], each once. *)
Definition writes_output_only {C : Type} `{Coord C}
    (entry : Z → Z → Z → memory C → option (memory C)) : Prop :=
  ∀ (N_vertices N_points_xy border_value : Z) (m : memory C),
    well_formed m N_vertices N_points_xy →
    ∃ m', entry N_vertices N_points_xy border_value m = Some m'
      ∧ vertices m' = vertices m
      ∧ points_xy m' = points_xy m
      ∧ length (output m') = Z.to_nat N_points_xy
      ∧ stores m' = stores m ++ seq 0 (Z.to_nat N_points_xy)
      ∧ ∀ (i : nat) (r : Z), output m' !! i = Some r → 0 ≤ r < 256.

(** What a batch call leaves behind for the points that sit on a vertex: the
    border value reduced modulo 256. *)
Definition narrows_border {C : Type} `{Coord C}
    (entry : Z → Z → Z → memory C → option (memory C)) : Prop :=
  ∀ (N_vertices N_points_xy border_value : Z) (m : memory C) (i : nat)
    (point : PointOf C) (v : Point),
    well_formed m N_vertices N_points_xy →
    as_points (points_xy m) !! i = Some point →
    (i < Z.to_nat N_points_xy)%nat →
    v ∈ as_points (vertices m) →
    same_value (x v) (promote (x point)) = true →
    same_value (y v) (promote (y point)) = true →
    ∃ m', entry N_vertices N_points_xy border_value m = Some m'
      ∧ output m' !! i = Some (border_value mod 256).

(** ** Test data *)

Definition pt (a b : Z) : Point := mkPoint (double_of_int a) (double_of_int b).

(** The integer [z] as a binary32 value. *)
Definition float_of_int (z : Z) : spec_float := binary_normalize 24 128 z 0 false.
Definition ptF (a b : Z) : PointF := mkPoint (float_of_int a) (float_of_int b).
Definition ptInt (a b : Z) : PointInt := mkPoint a b.

(** The polygon [(0,0), (0,10), (10,10), (10,0)]. *)
Definition square : list Point := [pt 0 0; pt 0 10; pt 10 10; pt 10 0].

Definition square_buffer : list float :=
  double_of_int <$> [0; 0; 0; 10; 10; 10; 10; 0].

(** Three query points (5,5), (15,5), (0,0) in a buffer of each type, and an
    output buffer of three bytes. *)
Definition queries : list Z := [5; 5; 15; 5; 0; 0].
Definition memory_double : memory float :=
  mkMemory square_buffer (double_of_int <$> queries) [7; 7; 7] [].
Definition memory_float : memory spec_float :=
  mkMemory square_buffer (float_of_int <$> queries) [7; 7; 7] [].
Definition memory_int : memory Z :=
  mkMemory square_buffer queries [7; 7; 7] [].

(** An edge from (0, -M) to (10, M) and the query point (0, M), for the
    largest power of two [M] a double holds. *)
Definition huge : float := 0x1p+1023%float.
Definition steep_p1 : Point := mkPoint 0%float (- huge)%float.
Definition steep_p2 : Point := mkPoint 10%float huge.
Definition steep_query : Point := mkPoint 0%float huge.

(** ** The contract, loosened *)

(** A call whose buffers are at least as long as the counts say: at least
    one vertex is used, and [2 * N_vertices] doubles, [2 * N_points_xy]
    coordinates and [N_points_xy] output bytes are there, possibly with
    more after them. *)
Definition fits {C : Type} (m : memory C) (N_vertices N_points_xy : Z)
    : Prop :=
  1 ≤ N_vertices ∧ 0 ≤ N_points_xy
  ∧ 2 * N_vertices ≤ Z.of_nat (length (vertices m))
  ∧ 2 * N_points_xy ≤ Z.of_nat (length (points_xy m))
  ∧ N_points_xy ≤ Z.of_nat (length (output m)).

(** What a batch call leaves behind on buffers that may be longer than the
    counts say: the first [N_points_xy] slots hold what the predicate
    returns for their points, the slots after them hold what they held, and
    the input buffers are as before. *)
Definition keeps_slots_beyond_count {C : Type} `{Coord C}
    (entry : Z → Z → Z → memory C → option (memory C)) : Prop :=
  ∀ (N_vertices N_points_xy border_value : Z) (m : memory C),
    fits m N_vertices N_points_xy →
    ∃ m', entry N_vertices N_points_xy border_value m = Some m'
      ∧ vertices m' = vertices m
      ∧ points_xy m' = points_xy m
      ∧ length (output m') = length (output m)
      ∧ stores m' = stores m ++ seq 0 (Z.to_nat N_points_xy)
      ∧ (∀ i : nat, (i < Z.to_nat N_points_xy)%nat →
           ∃ point r,
             as_points (points_xy m) !! i = Some point
             ∧ _INSIDE_POLYGON (as_points (vertices m)) N_vertices point
                 (to_uchar border_value) = Some r
             ∧ output m' !! i = Some r)
      ∧ (∀ i : nat, (Z.to_nat N_points_xy ≤ i)%nat →
           output m' !! i = output m !! i).

(** A batch call with a point count of zero or less does nothing. *)
Definition empty_batch_is_noop {C : Type}
    (entry : Z → Z → Z → memory C → option (memory C)) : Prop :=
  ∀ (N_vertices N_points_xy border_value : Z) (m : memory C),
    N_points_xy ≤ 0 →
    entry N_vertices N_points_xy border_value m = Some m.

(** A batch call does not tell apart two border values that agree modulo
    256. *)
Definition border_modulo_256 {C : Type}
    (entry : Z → Z → Z → memory C → option (memory C)) : Prop :=
  ∀ (N_vertices N_points_xy border_value k : Z) (m : memory C),
    entry N_vertices N_points_xy (border_value + 256 * k) m
    = entry N_vertices N_points_xy border_value m.

(** The border value reaches the slots of points that sit on a vertex and
    no other slot. *)
Definition border_reaches_vertex_slots_only {C : Type} `{Coord C}
    (entry : Z → Z → Z → memory C → option (memory C)) : Prop :=
  ∀ (N_vertices N_points_xy border1 border2 : Z) (m : memory C) (i : nat)
    (point : PointOf C),
    fits m N_vertices N_points_xy →
    (i < Z.to_nat N_points_xy)%nat →
    as_points (points_xy m) !! i = Some point →
    (∀ v, v ∈ take (Z.to_nat N_vertices) (as_points (vertices m)) →
          on_vertex v point = false) →
    ∃ m1 m2 r,
      entry N_vertices N_points_xy border1 m = Some m1
      ∧ entry N_vertices N_points_xy border2 m = Some m2
      ∧ output m1 !! i = Some r
      ∧ output m2 !! i = Some r.

(** A second batch call on what the first one left stores the same
    bytes. *)
Definition repeatable {C : Type}
    (entry : Z → Z → Z → memory C → option (memory C)) : Prop :=
  ∀ (N_vertices N_points_xy border_value : Z) (m : memory C),
    fits m N_vertices N_points_xy →
    ∃ m' m'',
      entry N_vertices N_points_xy border_value m = Some m'
      ∧ entry N_vertices N_points_xy border_value m' = Some m''
      ∧ output m'' = output m'.

(** One batch call on two runs of points laid end to end stores what two
    calls, one on each run, store. *)
Definition splits {C : Type}
    (entry : Z → Z → Z → memory C → option (memory C)) : Prop :=
  ∀ (N_vertices border_value : Z) (vs : list float) (pts1 pts2 : list C)
    (out1 out2 : list Z) (log : list nat) (k1 k2 : nat),
    1 ≤ N_vertices → 2 * N_vertices ≤ Z.of_nat (length vs) →
    length pts1 = (2 * k1)%nat → length out1 = k1 →
    length pts2 = (2 * k2)%nat → length out2 = k2 →
    ∃ m m1 m2,
      entry N_vertices (Z.of_nat (k1 + k2)) border_value
        (mkMemory vs (pts1 ++ pts2) (out1 ++ out2) log) = Some m
      ∧ entry N_vertices (Z.of_nat k1) border_value
          (mkMemory vs pts1 out1 log) = Some m1
      ∧ entry N_vertices (Z.of_nat k2) border_value
          (mkMemory vs pts2 out2 log) = Some m2
      ∧ output m = output m1 ++ output m2.

(** Every byte a batch call stores is [INSIDE], [OUTSIDE] or the border
    value modulo 256. *)
Definition stores_sentinel_or_border {C : Type}
    (entry : Z → Z → Z → memory C → option (memory C)) : Prop :=
  ∀ (N_vertices N_points_xy border_value : Z) (m : memory C) (i : nat),
    fits m N_vertices N_points_xy →
    (i < Z.to_nat N_points_xy)%nat →
    ∃ m' r,
      entry N_vertices N_points_xy border_value m = Some m'
      ∧ output m' !! i = Some r
      ∧ (r = INSIDE ∨ r = OUTSIDE ∨ r = border_value mod 256).

(** ** More test data *)

(** A triangle whose first vertex has a NaN for its x: (NaN,0), (0,10),
    (10,10). *)
Definition nan_vertex : Point := mkPoint nan (double_of_int 0).
Definition nan_triangle : list Point := [nan_vertex; pt 0 10; pt 10 10].

(** A query point whose x is a NaN. *)
Definition nan_query : Point := mkPoint nan (double_of_int 5).

(** A call on buffers that are longer than the counts 4 and 2 say: one
    more vertex, one more point, three more output bytes. *)
Definition memory_roomy : memory Z :=
  mkMemory (square_buffer ++ [double_of_int 99; double_of_int 99])
           [5; 5; 15; 5; 0; 0] [7; 7; 7; 7; 7] [].

(** ** Facts about doubles

    The comparisons and the arithmetic of primitive floats are specified by
    [SpecFloat]; what the predicate relies on is proved from there. *)

Module FloatFacts.

Lemma SFcompare_antisym (a b : spec_float) (c : comparison) :
  SFcompare a b = Some c → SFcompare b a = Some (CompOpp c).
Proof.
  destruct a as [sa|sa| |sa ma ea], b as [sb|sb| |sb mb eb]; simpl;
    intros E; try discriminate; injection E as <-;
    try (by destruct sa); try (by destruct sb);
    try (by destruct sa, sb).
  f_equal.
  rewrite (Z.compare_antisym ea eb).
  destruct sa, sb; try done; destruct (ea ?= eb); simpl; try done.
  all: change (PosDef.Pos.compare_cont Eq) with Pos.compare;
    by rewrite (Pos.compare_antisym ma mb).
Qed.

(** [a > b] and [a <= b] never hold together. *)
Lemma ltb_not_leb (a b : float) :
  (b <? a)%float = true → (a <=? b)%float = false.
Proof.
  rewrite ltb_spec, leb_spec. unfold SFltb, SFleb.
  destruct (SFcompare (Prim2SF b) (Prim2SF a)) as [c|] eqn:E; [|done].
  rewrite (SFcompare_antisym _ _ _ E). by destruct c.
Qed.

(** Equal doubles are not ordered either way. *)
Lemma eqb_not_ltb (a b : float) :
  (a =? b)%float = true →
  (a <? b)%float = false ∧ (b <? a)%float = false.
Proof.
  rewrite FloatAxioms.eqb_spec, !ltb_spec. unfold SFeqb, SFltb.
  destruct (SFcompare (Prim2SF a) (Prim2SF b)) as [c|] eqn:E; [|done].
  rewrite (SFcompare_antisym _ _ _ E). by destruct c.
Qed.

End FloatFacts.

Module Rounding.

Lemma digits2_pos_size (m : positive) : digits2_pos m = Pos.size m.
Proof. induction m; simpl; congruence. Qed.

Lemma digits2_bounds (m : positive) :
  2 ^ (Z.pos (digits2_pos m) - 1) ≤ Z.pos m < 2 ^ Z.pos (digits2_pos m).
Proof.
  rewrite digits2_pos_size.
  pose proof (Pos.size_gt m) as Hgt. pose proof (Pos.size_le m) as Hle.
  apply Pos2Z.pos_lt_pos in Hgt. apply Pos2Z.pos_le_pos in Hle.
  rewrite Pos2Z.inj_pow in Hgt, Hle.
  replace (Z.pos (Pos.size m)) with (Z.succ (Z.pos (Pos.size m) - 1)) in Hle
    by lia.
  rewrite Z.pow_succ_r in Hle by lia. lia.
Qed.

Lemma shr_1_m (r : shr_record) :
  0 ≤ shr_m r → shr_m (shr_1 r) = shr_m r / 2.
Proof.
  destruct r as [m b s]. simpl. intros Hm.
  destruct m as [|q|q]; [done| |lia].
  destruct q as [q|q|]; simpl; try done.
  - rewrite Pos2Z.inj_xI. apply Z.div_unique with 1; lia.
  - rewrite Pos2Z.inj_xO. apply Z.div_unique with 0; lia.
Qed.

Lemma iter_shr_1_m (n : positive) (r : shr_record) :
  0 ≤ shr_m r → shr_m (SpecFloat.iter_pos shr_1 n r) = shr_m r / 2 ^ Z.pos n.
Proof.
  revert r. induction n as [n IH|n IH|]; intros r Hr; simpl SpecFloat.iter_pos.
  - assert (0 ≤ shr_m (shr_1 r)) as H1
      by (rewrite shr_1_m by done; apply Z.div_pos; lia).
    assert (0 ≤ shr_m (SpecFloat.iter_pos shr_1 n (shr_1 r))) as H2
      by (rewrite IH by done; apply Z.div_pos; lia).
    rewrite IH, IH, shr_1_m by done.
    rewrite !Z.div_div by lia. f_equal.
    replace (Z.pos n~1) with (1 + Z.pos n + Z.pos n) by lia.
    rewrite !Z.pow_add_r by lia. lia.
  - assert (0 ≤ shr_m (SpecFloat.iter_pos shr_1 n r)) as H2
      by (rewrite IH by done; apply Z.div_pos; lia).
    rewrite IH, IH by done.
    rewrite !Z.div_div by lia. f_equal.
    replace (Z.pos n~0) with (Z.pos n + Z.pos n) by lia.
    by rewrite !Z.pow_add_r by lia.
  - rewrite shr_1_m by done. done.
Qed.

(** Shifting to the canonical exponent keeps a positive mantissa positive
    as long as the exponent is not below [emin]. *)
Lemma shr_fexp_pos (m e : Z) (l : location) :
  0 < m → emin ≤ e →
  0 < shr_m (shr_fexp prec emax m e l).1 ∧
  emin ≤ (shr_fexp prec emax m e l).2.
Proof.
  intros Hm He. unfold shr_fexp, shr.
  assert (shr_m (shr_record_of_loc m l) = m) as Hrec
    by (by destruct l as [|[]]).
  destruct m as [|q|q]; [lia| |lia]. simpl Zdigits2.
  pose proof (digits2_bounds q) as [Hlo Hhi].
  set (d := Z.pos (digits2_pos q)) in *.
  destruct (fexp prec emax (d + e) - e) as [|n|n] eqn:En; simpl;
    rewrite ?Hrec; try lia.
  rewrite iter_shr_1_m by (rewrite Hrec; lia). rewrite Hrec.
  unfold fexp, SpecFloat.emin, prec, emax in *.
  assert (Z.pos n ≤ d - 1) as Hn by lia.
  split; [|lia].
  apply Z.div_str_pos. split; [apply Z.pow_pos_nonneg; lia|].
  etransitivity; [|exact Hlo]. apply Z.pow_le_mono_r; lia.
Qed.

Lemma round_nearest_even_pos (m : Z) (l : location) :
  0 < m → 0 < round_nearest_even m l.
Proof.
  intros Hm. destruct l as [|[]]; simpl; try lia.
  destruct (Z.even m); lia.
Qed.

Lemma binary_round_aux_not_zero (s s' : bool) (m e : Z) (l : location) :
  0 < m → emin ≤ e →
  binary_round_aux prec emax s m e l ≠ S754_zero s'.
Proof.
  intros Hm He. unfold binary_round_aux.
  pose proof (shr_fexp_pos m e l Hm He) as [H1 H1'].
  destruct (shr_fexp prec emax m e l) as [mrs' e']. simpl in H1, H1'.
  pose proof (round_nearest_even_pos _ (loc_of_shr_record mrs') H1) as H2.
  pose proof (shr_fexp_pos _ e' loc_Exact H2 H1') as [H3 _].
  destruct (shr_fexp prec emax _ e' loc_Exact) as [mrs'' e''].
  simpl in H3. destruct (shr_m mrs''); [lia| |lia].
  by destruct (e'' <=? emax - prec).
Qed.

Lemma binary_round_not_zero (s s' : bool) (m : positive) (e : Z) :
  emin ≤ e → binary_round prec emax s m e ≠ S754_zero s'.
Proof.
  intros He. unfold binary_round, shl_align.
  set (f := fexp prec emax (Z.pos (digits2_pos m) + e)).
  assert (emin ≤ f) by (unfold f, fexp; lia).
  destruct (f - e) eqn:Ef; apply binary_round_aux_not_zero; lia.
Qed.

Lemma iter_xO_value (m d : positive) :
  Z.pos (Pos.iter xO m d) = Z.pos m * 2 ^ Z.pos d.
Proof.
  induction d as [|d IH] using Pos.peano_ind.
  - simpl. lia.
  - rewrite Pos.iter_succ, Pos2Z.inj_xO, IH, Pos2Z.inj_succ.
    rewrite Z.pow_succ_r by lia. lia.
Qed.

Lemma shl_align_value (m : positive) (e ez : Z) :
  ez ≤ e → Z.pos (shl_align m e ez).1 = Z.pos m * 2 ^ (e - ez).
Proof.
  intros Hle. unfold shl_align.
  destruct (ez - e) as [|d|d] eqn:Ed; simpl; [|lia|].
  - replace (e - ez) with 0 by lia. lia.
  - replace (e - ez) with (Z.pos d) by lia. apply iter_xO_value.
Qed.

(** A bounded mantissa has at most [prec] digits, and exactly [prec]
    above the smallest exponent. *)
Lemma bounded_canonical (m : positive) (e : Z) :
  bounded prec emax m e = true →
  emin ≤ e ∧ Z.pos (digits2_pos m) ≤ prec ∧
  (emin < e → Z.pos (digits2_pos m) = prec).
Proof.
  unfold bounded, canonical_mantissa, fexp.
  intros [Hc _]%andb_prop. apply Z.eqb_eq in Hc. lia.
Qed.

(** With a larger exponent comes a larger aligned mantissa. *)
Lemma aligned_lt (m1 m2 : positive) (e1 e2 : Z) :
  bounded prec emax m1 e1 = true → bounded prec emax m2 e2 = true →
  e1 < e2 → Z.pos m1 < Z.pos m2 * 2 ^ (e2 - e1).
Proof.
  intros (He1 & Hd1 & _)%bounded_canonical (He2 & _ & Hd2)%bounded_canonical
    Hlt.
  specialize (Hd2 ltac:(lia)).
  pose proof (digits2_bounds m1) as [_ Hhi].
  pose proof (digits2_bounds m2) as [Hlo _].
  rewrite Hd2 in Hlo.
  assert (2 ^ Z.pos (digits2_pos m1) ≤ 2 ^ prec) as Hp
    by (apply Z.pow_le_mono_r; lia).
  assert (2 ^ 1 ≤ 2 ^ (e2 - e1)) as Hs by (apply Z.pow_le_mono_r; lia).
  change (2 ^ 1) with 2 in Hs.
  replace (2 ^ prec) with (2 ^ (prec - 1) * 2) in Hp by done.
  nia.
Qed.

Lemma sub_mantissa_not_zero (sa sb : bool) (ma mb : positive) (ea eb : Z) :
  bounded prec emax ma ea = true → bounded prec emax mb eb = true →
  SFeqb (S754_finite sa ma ea) (S754_finite sb mb eb) = false →
  cond_Zopp sb (Z.pos (shl_align mb eb (Z.min eb ea)).1)
  - cond_Zopp sa (Z.pos (shl_align ma ea (Z.min eb ea)).1) ≠ 0.
Proof.
  intros Ha Hb Hne.
  rewrite !shl_align_value by lia.
  assert (0 < 2 ^ (eb - Z.min eb ea)) by (apply Z.pow_pos_nonneg; lia).
  assert (0 < 2 ^ (ea - Z.min eb ea)) by (apply Z.pow_pos_nonneg; lia).
  unfold SFeqb, SFcompare in Hne.
  destruct sa, sb; simpl; try nia.
  all: destruct (Z.compare_spec ea eb) as [->|Hlt|Hlt].
  all: try (rewrite Z.min_id, Z.sub_diag; change (2 ^ 0) with 1;
            change (PosDef.Pos.compare_cont Eq) with Pos.compare in Hne;
            destruct (Pos.compare_spec ma mb); simpl in Hne; lia).
  all: try (rewrite Z.min_r, Z.sub_diag by lia; change (2 ^ 0) with 1;
            pose proof (aligned_lt _ _ _ _ Ha Hb Hlt); lia).
  all: rewrite Z.min_l, Z.sub_diag by lia; change (2 ^ 0) with 1;
       pose proof (aligned_lt _ _ _ _ Hb Ha Hlt); lia.
Qed.

(** Gradual underflow: the difference of two doubles that do not compare
    equal is never a zero. *)
Lemma SFsub_not_zero (a b : spec_float) (s : bool) :
  valid_binary a = true → valid_binary b = true →
  SFeqb a b = false → SFsub prec emax b a ≠ S754_zero s.
Proof.
  intros Va Vb Hne.
  destruct a as [sa|sa| |sa ma ea], b as [sb|sb| |sb mb eb];
    try done; try (by destruct sa, sb).
  simpl in Va, Vb. cbn [SFsub].
  pose proof (sub_mantissa_not_zero _ _ _ _ _ _ Va Vb Hne) as Hm.
  apply bounded_canonical in Va as (Hea & _), Vb as (Heb & _).
  unfold binary_normalize.
  change (fst ?u) with (u.1) in *.
  destruct (cond_Zopp sb _ - cond_Zopp sa _); [done|..];
    apply binary_round_not_zero; lia.
Qed.

Lemma SFeqb_zero_false (a : spec_float) :
  (∀ s, a ≠ S754_zero s) → SFeqb a (S754_zero false) = false.
Proof.
  intros Hz. destruct a as [sa|sa| |sa ma ea]; try done.
  - by destruct (Hz sa).
  - by destruct sa.
  - by destruct sa.
Qed.

End Rounding.

(** The guard [p1.y != p2.y] makes the divisor [p2.y - p1.y] non-zero. *)
Lemma sub_not_zero (a b : float) :
  (a =? b)%float = false → (b - a =? 0)%float = false.
Proof.
  rewrite !FloatAxioms.eqb_spec, sub_spec. intros Hne.
  change (Prim2SF 0) with (S754_zero false).
  apply Rounding.SFeqb_zero_false. intros s.
  apply Rounding.SFsub_not_zero; auto using Prim2SF_valid.
Qed.


Module SameValue.







(** The same on doubles, through their specification. *)










End SameValue.

(** ** The loop computes [classify] *)

Lemma edges_length (polygon : list Point) :
  length (edges polygon) = length polygon.
Proof.
  unfold edges. rewrite length_zip_with, length_rotate. lia.
Qed.

(** Edge [k] joins vertex [k] to vertex [(k+1) mod N]. *)
Lemma edges_lookup (polygon : list Point) (k : nat) (p1 p2 : Point) :
  polygon !! k = Some p1 →
  polygon !! ((k + 1) mod length polygon)%nat = Some p2 →
  edges polygon !! k = Some (p1, p2).
Proof.
  intros Hk Hk'. pose proof (lookup_lt_Some _ _ _ Hk) as Hlt.
  unfold edges. rewrite lookup_zip_with, Hk. simpl.
  rewrite lookup_rotate_r by done. unfold rotate_nat_add.
  replace (Z.to_nat ((Z.of_nat 1 + Z.of_nat k) `mod` Z.of_nat (length polygon)))
    with ((k + 1) mod length polygon)%nat.
  - by rewrite Hk'.
  - rewrite Z2Nat.inj_mod by lia. f_equal; lia.
Qed.

Lemma parity_result_of_nat (n : nat) :
  parity_result (Z.of_nat n) = if Nat.even n then OUTSIDE else INSIDE.
Proof.
  unfold parity_result.
  rewrite Z.rem_mod_nonneg by lia.
  change 2 with (Z.of_nat 2). rewrite <- (Nat2Z.inj_mod n 2).
  destruct (Nat.even n) eqn:E.
  - apply Nat.even_spec in E. destruct E as [h ->].
    replace (2 * h)%nat with (h * 2)%nat by lia.
    by rewrite Nat.Div0.mod_mul.
  - assert (Nat.odd n = true) as O by (by rewrite <- Nat.negb_even, E).
    apply Nat.odd_spec in O. destruct O as [h ->].
    replace (2 * h + 1)%nat with (1 + h * 2)%nat by lia.
    by rewrite Nat.Div0.mod_add.
Qed.

Section Reading_lemmas.
Context {C : Type} `{Coord C}.
Implicit Types (polygon : list Point) (p : PointOf C).

Lemma crossings_in_cons (e : Point * Point) es p :
  crossings_in (e :: es) p
  = ((if crosses e.1 e.2 p then 1 else 0) + crossings_in es p)%nat.
Proof. reflexivity. Qed.

(** The loop invariant: with [n] iterations left the loop is at vertex
    [k = N - n]; what it returns is decided by the vertices and edges from
    [k] on. *)
Lemma scan_reads polygon p (border_value : Z) (n k : nat) (p1 : Point)
    (c : nat) :
  (k + n = length polygon)%nat →
  ((0 < n)%nat → polygon !! k = Some p1) →
  scan polygon (Z.of_nat (length polygon)) p border_value n
       (Z.of_nat k + 1) p1 (Z.of_nat c)
  = Some (if hits_vertex (drop k polygon) p then border_value
          else parity_result
                 (Z.of_nat (c + crossings_in (drop k (edges polygon)) p))).
Proof.
  revert k p1 c. induction n as [|n IH]; intros k p1 c Hlen Hp1.
  - simpl. rewrite !drop_ge by (rewrite ?edges_length; lia).
    simpl. do 2 f_equal. unfold crossings_in. simpl. lia.
  - specialize (Hp1 ltac:(lia)).
    cbn [scan]. rewrite (drop_S _ _ _ Hp1).
    unfold hits_vertex. cbn [existsb].
    destruct (on_vertex p1 p); [done|]. cbn [orb].
    assert (Z.rem (Z.of_nat k + 1) (Z.of_nat (length polygon))
            = Z.of_nat ((k + 1) mod length polygon)) as ->.
    { rewrite Z.rem_mod_nonneg by lia. rewrite Nat2Z.inj_mod. f_equal. lia. }
    destruct (Z.ltb_spec (Z.of_nat ((k + 1) mod length polygon)) 0) as [?|_];
      [lia|].
    rewrite Nat2Z.id.
    destruct (lookup_lt_is_Some_2 polygon ((k + 1) mod length polygon))
      as [p2 Hp2]; [apply Nat.mod_upper_bound; lia|].
    rewrite Hp2. simpl.
    rewrite (drop_S _ _ _ (edges_lookup _ _ _ _ Hp1 Hp2)).
    rewrite crossings_in_cons. simpl.
    replace (Z.of_nat k + 1) with (Z.of_nat (S k)) by lia.
    replace (if crosses p1 p2 p then Z.of_nat c + 1 else Z.of_nat c)
      with (Z.of_nat (c + if crosses p1 p2 p then 1 else 0)%nat)
      by (destruct (crosses p1 p2 p); lia).
    rewrite IH.
    + unfold hits_vertex. by rewrite Nat.add_assoc.
    + lia.
    + intros Hn. rewrite Nat.mod_small in Hp2 by lia.
      by replace (S k) with (k + 1)%nat by lia.
Qed.

(** On a polygon of [N >= 1] vertices the predicate returns, and what it
    returns is [classify]. *)
Lemma inside_polygon_classify polygon p (border_value : Z) :
  polygon ≠ [] →
  _INSIDE_POLYGON polygon (Z.of_nat (length polygon)) p border_value
  = Some (classify polygon p border_value).
Proof.
  intros Hne. unfold _INSIDE_POLYGON.
  destruct (polygon !! 0%nat) as [v0|] eqn:E0.
  - cbn [mbind option_bind]. rewrite Nat2Z.id.
    pose proof (scan_reads polygon p border_value (length polygon) 0 v0 0)
      as Hs.
    change (Z.of_nat 0 + 1) with 1 in Hs. change (Z.of_nat 0) with 0 in Hs.
    rewrite Hs by done.
    unfold classify, crossings. by rewrite parity_result_of_nat.
  - apply lookup_ge_None in E0. destruct polygon; [done|simpl in E0; lia].
Qed.

End Reading_lemmas.

(** ** Rotating the vertex list *)

Lemma rotate_rotate_comm {A : Type} (a b : nat) (l : list A) :
  rotate a (rotate b l) = rotate b (rotate a l).
Proof.
  apply list_eq. intros i.
  destruct (decide (i < length l)%nat) as [Hi|Hi].
  - rewrite (lookup_rotate_r (rotate b l) a i),
      (lookup_rotate_r (rotate a l) b i) by (by rewrite length_rotate).
    rewrite !length_rotate.
    rewrite (lookup_rotate_r l b), (lookup_rotate_r l a)
      by (apply rotate_nat_add_lt; lia).
    f_equal. unfold rotate_nat_add.
    rewrite !Z2Nat.id by (apply Z.mod_pos_bound; lia).
    f_equal.
    rewrite !Zplus_mod_idemp_r. f_equal. lia.
  - rewrite !lookup_ge_None_2 by (rewrite !length_rotate; lia). done.
Qed.

Lemma zip_rotate {A B : Type} (k : nat) (l : list A) (l' : list B) :
  length l = length l' →
  zip (rotate k l) (rotate k l') = rotate k (zip l l').
Proof.
  intros Hlen. unfold rotate.
  rewrite length_zip_with, <- Hlen, Nat.min_id.
  rewrite zip_with_app by (rewrite !length_drop; lia).
  by rewrite zip_with_drop, zip_with_take.
Qed.

Lemma edges_rotate (k : nat) (polygon : list Point) :
  edges (rotate k polygon) = rotate k (edges polygon).
Proof.
  unfold edges. rewrite rotate_rotate_comm.
  apply zip_rotate. by rewrite length_rotate.
Qed.

Section Rotation.
Context {C : Type} `{Coord C}.
Implicit Types (polygon : list Point) (p : PointOf C).

Lemma crossings_in_app (es1 es2 : list (Point * Point)) p :
  crossings_in (es1 ++ es2) p
  = (crossings_in es1 p + crossings_in es2 p)%nat.
Proof. unfold crossings_in. by rewrite fmap_app, sum_list_with_app. Qed.

Lemma crossings_in_rotate (k : nat) (es : list (Point * Point)) p :
  crossings_in (rotate k es) p = crossings_in es p.
Proof.
  unfold rotate. rewrite crossings_in_app.
  transitivity (crossings_in (take (k mod length es) es
                              ++ drop (k mod length es) es) p).
  - rewrite crossings_in_app. lia.
  - by rewrite take_drop.
Qed.

Lemma hits_vertex_elem polygon p :
  hits_vertex polygon p = true ↔ ∃ v, v ∈ polygon ∧ on_vertex v p = true.
Proof.
  unfold hits_vertex. rewrite existsb_exists.
  by setoid_rewrite list_elem_of_In.
Qed.

Lemma hits_vertex_rotate (k : nat) polygon p :
  hits_vertex (rotate k polygon) p = hits_vertex polygon p.
Proof.
  apply eq_true_iff_eq. rewrite !hits_vertex_elem.
  by setoid_rewrite elem_of_rotate.
Qed.

Lemma classify_rotate (k : nat) polygon p (border_value : Z) :
  classify (rotate k polygon) p border_value
  = classify polygon p border_value.
Proof.
  unfold classify, crossings.
  by rewrite hits_vertex_rotate, edges_rotate, crossings_in_rotate.
Qed.

End Rotation.

(** ** The edge test, as the specification words it *)

Lemma wrap_edge_lookup (polygon : list Point) (i : nat) :
  wrap_edge polygon i = edges polygon !! i.
Proof.
  unfold wrap_edge.
  destruct (polygon !! i) as [p1|] eqn:E1; simpl.
  - pose proof (lookup_lt_Some _ _ _ E1) as Hlt.
    destruct (lookup_lt_is_Some_2 polygon ((i + 1) mod length polygon))
      as [p2 E2]; [apply Nat.mod_upper_bound; lia|].
    rewrite E2. simpl. symmetry. by apply edges_lookup.
  - symmetry. apply lookup_ge_None_2. rewrite edges_length.
    by apply lookup_ge_None_1.
Qed.

(** A sum over a list is a sum over its indices. *)
Lemma sum_list_by_index {A : Type} (f : A → nat) (l : list A) :
  sum_list (f <$> l)
  = sum_list ((λ i, from_option f 0%nat (l !! i)) <$> seq 0 (length l)).
Proof.
  induction l as [|a l IH]; [done|].
  cbn [length seq fmap list_fmap sum_list_with]. cbn [lookup list_lookup].
  simpl from_option. rewrite <- fmap_S_seq, <- list_fmap_compose.
  unfold id in *. f_equal. exact IH.
Qed.

(** Case analysis on the guards of the loop body, outermost first. *)
Ltac case_guards :=
  repeat match goal with
         | |- context [if ?b then _ else _] => destruct b eqn:?; try done
         end.

Section Edge_test.
Context {C : Type} `{Coord C}.
Implicit Types (polygon : list Point) (p : PointOf C).

Lemma crosses_counts_as_crossing (p1 p2 : Point) p :
  crosses p1 p2 p = counts_as_crossing p1 p2 p.
Proof.
  unfold crosses, edge_test, counts_as_crossing, xinters, dividend, divisor.
  cbv zeta. by case_guards.
Qed.

Lemma crossings_crossing_count polygon p :
  crossings polygon p = crossing_count polygon p.
Proof.
  unfold crossings, crossings_in, crossing_count.
  rewrite sum_list_by_index, edges_length.
  f_equal. apply list_fmap_ext. intros _ i _.
  rewrite wrap_edge_lookup.
  destruct (edges polygon !! i) as [[p1 p2]|]; [|done].
  simpl. by rewrite crosses_counts_as_crossing.
Qed.

(** Where a division is evaluated, the guard [p1.y != p2.y] held. *)
Lemma edge_test_divisor (p1 p2 : Point) p (d : float) :
  d ∈ (edge_test p1 p2 p).2 →
  d = divisor p1 p2 ∧ (y p1 =? y p2)%float = false.
Proof.
  unfold edge_test.
  destruct (MIN (y p1) (y p2) <? promote (y p))%float;
    [|by intros ?%elem_of_nil].
  destruct (promote (y p) <=? MAX (y p1) (y p2))%float;
    [|by intros ?%elem_of_nil].
  destruct (promote (x p) <=? MAX (x p1) (x p2))%float;
    [|by intros ?%elem_of_nil].
  destruct (y p1 =? y p2)%float; simpl; [by intros ?%elem_of_nil|].
  by intros ->%list_elem_of_singleton.
Qed.

(** On a horizontal edge the two tests on [p.y] exclude each other. *)
Lemma horizontal_y_tests (p1 p2 : Point) p :
  (y p1 =? y p2)%float = true →
  (MIN (y p1) (y p2) <? promote (y p))%float
  && (promote (y p) <=? MAX (y p1) (y p2))%float = false.
Proof.
  intros [Hlt Hgt]%FloatFacts.eqb_not_ltb.
  unfold MIN, MAX. rewrite Hlt, Hgt.
  destruct (y p2 <? promote (y p))%float eqn:E; [|done].
  by rewrite (FloatFacts.ltb_not_leb _ _ E).
Qed.

Lemma horizontal_not_counted (p1 p2 : Point) p :
  (y p1 =? y p2)%float = true → crosses p1 p2 p = false.
Proof.
  intros Hh. pose proof (horizontal_y_tests p1 p2 p Hh) as Ht.
  unfold crosses, edge_test. by case_guards.
Qed.

End Edge_test.

(** ** Points of the same value *)

Section Same_value.
Context {C1 C2 : Type} `{Coord C1} `{Coord C2}.
Implicit Types (polygon : list Point) (p : PointOf C1) (q : PointOf C2).





End Same_value.

(** ** The batch loop *)

Lemma length_as_points {C : Type} (buf : list C) :
  length (as_points buf) = Nat.div2 (length buf).
Proof.
  enough (length (as_points buf) = Nat.div2 (length buf)
          ∧ ∀ a, length (as_points (a :: buf))
                 = Nat.div2 (length (a :: buf))) as [? _]; [done|].
  induction buf as [|b buf [IH1 IH2]]; [done|].
  split; [apply IH2|]. intros a. simpl. by rewrite IH1.
Qed.

Lemma length_as_points_even {C : Type} (buf : list C) (n : Z) :
  Z.of_nat (length buf) = 2 * n → length (as_points buf) = Z.to_nat n.
Proof.
  intros Hlen. rewrite length_as_points.
  replace (length buf) with (2 * Z.to_nat n)%nat by lia.
  apply Nat.div2_double.
Qed.

Lemma classify_byte {C : Type} `{Coord C} (polygon : list Point)
    (p : PointOf C) (border : Z) :
  0 ≤ border < 256 → 0 ≤ classify polygon p border < 256.
Proof.
  intros Hb. unfold classify, INSIDE, OUTSIDE.
  destruct (hits_vertex polygon p); [done|].
  destruct (Nat.even _); lia.
Qed.

Lemma to_uchar_byte (v : Z) : 0 ≤ to_uchar v < 256.
Proof. unfold to_uchar. apply Z.mod_pos_bound. lia. Qed.

Section Batch_lemmas.
Context {C : Type} `{Coord C}.

(** The invariant of the loop: with [n] iterations left at index [i], the
    slots [i .. i+n-1] receive the classification of their points, in this
    order, and nothing else changes. *)
Lemma batch_loop_spec (N_vertices border : Z) (n i : nat) (m : memory C) :
  as_points (vertices m) ≠ [] →
  N_vertices = Z.of_nat (length (as_points (vertices m))) →
  (i + n ≤ length (as_points (points_xy m)))%nat →
  (i + n ≤ length (output m))%nat →
  ∃ m', batch_loop N_vertices border n i m = Some m'
    ∧ vertices m' = vertices m
    ∧ points_xy m' = points_xy m
    ∧ length (output m') = length (output m)
    ∧ stores m' = stores m ++ seq i n
    ∧ (∀ (j : nat) (point : PointOf C),
         (i ≤ j < i + n)%nat →
         as_points (points_xy m) !! j = Some point →
         output m' !! j
         = Some (classify (as_points (vertices m)) point border))
    ∧ (∀ j : nat, ¬ (i ≤ j < i + n)%nat → output m' !! j = output m !! j).
Proof.
  revert i m. induction n as [|n IH]; intros i m Hne HN Hpts Hout.
  - exists m. simpl. rewrite app_nil_r. repeat split; try done.
    intros j point Hj. lia.
  - cbn [batch_loop].
    destruct (lookup_lt_is_Some_2 (as_points (points_xy m)) i)
      as [point Hpoint]; [lia|].
    rewrite Hpoint. cbn [mbind option_bind].
    rewrite HN, inside_polygon_classify by done. cbn [mbind option_bind].
    unfold store at 1. rewrite decide_True by lia. cbn [mbind option_bind].
    set (r := classify (as_points (vertices m)) point border).
    set (m1 := mkMemory (vertices m) (points_xy m) (<[i:=r]> (output m))
                        (stores m ++ [i])).
    destruct (IH (S i) m1) as (m' & Hrun & Hv & Hp & Hlen & Hst & Hin & Hout');
      try done.
    { simpl. lia. }
    { simpl. rewrite length_insert. lia. }
    simpl in Hv, Hp, Hlen, Hst, Hin, Hout'.
    exists m'. rewrite <- HN. split; [exact Hrun|].
    split; [done|]. split; [done|].
    split; [by rewrite Hlen, length_insert|].
    split; [by rewrite Hst, <- app_assoc|].
    split.
    + intros j q Hj Hq. destruct (decide (j = i)) as [->|Hji].
      * rewrite Hout' by lia. rewrite list_lookup_insert_eq by lia.
        rewrite Hpoint in Hq. by injection Hq as <-.
      * apply Hin; [lia|done].
    + intros j Hj. rewrite Hout' by lia.
      by rewrite list_lookup_insert_ne by lia.
Qed.

(** A well-formed call returns, and leaves this behind. *)
Lemma PointsInside_spec (N_vertices N_points_xy border_value : Z)
    (m : memory C) :
  well_formed m N_vertices N_points_xy →
  ∃ m', PointsInside N_vertices N_points_xy border_value m = Some m'
    ∧ vertices m' = vertices m
    ∧ points_xy m' = points_xy m
    ∧ length (output m') = Z.to_nat N_points_xy
    ∧ stores m' = stores m ++ seq 0 (Z.to_nat N_points_xy)
    ∧ ∀ i : nat, (i < Z.to_nat N_points_xy)%nat →
        ∃ point,
          as_points (points_xy m) !! i = Some point
          ∧ _INSIDE_POLYGON (as_points (vertices m)) N_vertices point
              (to_uchar border_value)
            = Some (classify (as_points (vertices m)) point
                      (to_uchar border_value))
          ∧ output m' !! i
            = Some (classify (as_points (vertices m)) point
                      (to_uchar border_value)).
Proof.
  intros (HNv & HNp & Hv & Hp & Ho).
  pose proof (length_as_points_even _ _ Hv) as Lv.
  pose proof (length_as_points_even _ _ Hp) as Lp.
  assert (as_points (vertices m) ≠ []) as Hne
    by (intros E; rewrite E in Lv; simpl in Lv; lia).
  assert (N_vertices = Z.of_nat (length (as_points (vertices m)))) as HN
    by lia.
  destruct (batch_loop_spec N_vertices (to_uchar border_value)
              (Z.to_nat N_points_xy) 0 m)
    as (m' & Hrun & Hv' & Hp' & Hlen & Hst & Hin & _); try done; try lia.
  exists m'. unfold PointsInside. cbv zeta.
  split; [exact Hrun|]. split; [done|]. split; [done|].
  split; [lia|]. split; [done|].
  intros i Hi.
  destruct (lookup_lt_is_Some_2 (as_points (points_xy m)) i)
    as [point Hpoint]; [lia|].
  exists point. split; [done|]. split.
  - rewrite HN at 1. by apply inside_polygon_classify.
  - apply Hin; [lia|done].
Qed.

End Batch_lemmas.

(** ** The predicate *)

Lemma no_vertex_hit {C : Type} `{Coord C} (polygon : list Point)
    (p : PointOf C) :
  hits_vertex polygon p = false ↔ ∀ v, v ∈ polygon → on_vertex v p = false.
Proof.
  split.
  - intros Hno v Hv. destruct (on_vertex v p) eqn:E; [|done].
    rewrite <- Hno. symmetry. apply hits_vertex_elem. eauto.
  - intros Hall. destruct (hits_vertex polygon p) eqn:E; [|done].
    apply hits_vertex_elem in E as (v & Hv & Hon).
    by rewrite (Hall v Hv) in Hon.
Qed.

(** C1.  On a polygon of [N >= 3] vertices and for a query point that
    coincides with none of them, the loop counts an edge exactly when the
    specification's five-part test holds for it, and the predicate returns
    [OUTSIDE] when the number of wrap-around edges [(v[i], v[(i+1) mod N])]
    that pass the test is even, [INSIDE] when it is odd. *)
Theorem crossing_parity {C : Type} `{Coord C} (polygon : list Point)
    (p : PointOf C) (border_value : Z) :
  (3 ≤ length polygon)%nat →
  (∀ v, v ∈ polygon → on_vertex v p = false) →
  (∀ p1 p2 : Point, crosses p1 p2 p = counts_as_crossing p1 p2 p)
  ∧ _INSIDE_POLYGON polygon (Z.of_nat (length polygon)) p border_value
    = Some (if Nat.even (crossing_count polygon p)
            then OUTSIDE else INSIDE).
Proof.
  intros HN Hno. split; [intros p1 p2; apply crosses_counts_as_crossing|].
  rewrite inside_polygon_classify by (intros ->; simpl in HN; lia).
  unfold classify.
  apply no_vertex_hit in Hno. rewrite Hno.
  by rewrite crossings_crossing_count.
Qed.

Lemma crossing_parity_witness :
  _InsidePolygon square 4 (pt 5 5) 2 = Some INSIDE
  ∧ _InsidePolygonInt square 4 (ptInt 15 5) 2 = Some OUTSIDE.
Proof.
  split.
  - refine (proj2 (crossing_parity square (pt 5 5) 2 _ _)).
    + simpl. lia.
    + apply no_vertex_hit. reflexivity.
  - refine (proj2 (crossing_parity square (ptInt 15 5) 2 _ _)).
    + simpl. lia.
    + apply no_vertex_hit. reflexivity.
Defined.

(** C2, as the specification has it, fails at the point (5,0): the bottom
    edge of the square runs from (10,0) to (0,0), the test [p.y > MIN] is
    [0 > 0], and no edge is counted. *)
Lemma square_edge_point_outside :
  (2 =? INSIDE) = false ∧ (2 =? OUTSIDE) = false
  ∧ (INSIDE =? OUTSIDE) = false
  ∧ _InsidePolygon square 4 (pt 5 0) 2 = Some OUTSIDE.
Proof. repeat split. Qed.

(** C2, amended.  On the square [(0,0), (0,10), (10,10), (10,0)] and for
    every border value the predicate returns [INSIDE] for (5,5), [OUTSIDE]
    for (15,5), the border value for (0,0), and [OUTSIDE] for the edge point
    (5,0). *)
Theorem square_classification (border_value : Z) :
  _InsidePolygon square 4 (pt 5 5) border_value = Some INSIDE
  ∧ _InsidePolygon square 4 (pt 15 5) border_value = Some OUTSIDE
  ∧ _InsidePolygon square 4 (pt 0 0) border_value = Some border_value
  ∧ _InsidePolygon square 4 (pt 5 0) border_value = Some OUTSIDE.
Proof. repeat split. Qed.

(** A double that is not a NaN equals itself: coordinates that agree bit
    for bit pass the vertex test, NaN apart. *)
Lemma same_value_refl (a : float) :
  is_nan a = false → same_value a a = true.
Proof.
  unfold is_nan, same_value. by destruct (a =? a)%float.
Qed.

(** A query point whose two coordinates compare equal ([==], no tolerance)
    to those of the vertex at any position [j] gets the border value: every
    vertex is tested before a parity result is returned. *)
Lemma vertex_returns_border {C : Type} `{Coord C} (polygon : list Point)
    (j : nat) (v : Point) (p : PointOf C) (border_value : Z) :
  polygon !! j = Some v →
  same_value (x v) (promote (x p)) = true →
  same_value (y v) (promote (y p)) = true →
  _INSIDE_POLYGON polygon (Z.of_nat (length polygon)) p border_value
  = Some border_value.
Proof.
  intros Hj Hx Hy.
  rewrite inside_polygon_classify by (intros ->; done).
  unfold classify.
  assert (hits_vertex polygon p = true) as ->; [|done].
  apply hits_vertex_elem. exists v. split.
  - by eapply list_elem_of_lookup_2.
  - unfold on_vertex. unfold same_value in Hx, Hy. by rewrite Hx, Hy.
Qed.

Lemma vertex_returns_border_witness :
  _InsidePolygonInt square 4 (ptInt 10 10) 2 = Some 2
  ∧ _InsidePolygonF square 4 (ptF 10 0) 2 = Some 2.
Proof.
  split.
  - exact (vertex_returns_border square 2 (pt 10 10) (ptInt 10 10) 2
             eq_refl eq_refl eq_refl).
  - exact (vertex_returns_border square 3 (pt 10 0) (ptF 10 0) 2
             eq_refl eq_refl eq_refl).
Defined.

(** C3, as the specification has it, fails at a vertex with a NaN
    coordinate: the query point that is this very vertex, bit for bit, does
    not pass [p1.x == p.x], no edge is counted, and the result is [OUTSIDE],
    not the border value 2. *)
Lemma nan_vertex_not_border :
  nan_triangle !! 0%nat = Some nan_vertex
  ∧ promote (x nan_vertex) = x nan_vertex
  ∧ promote (y nan_vertex) = y nan_vertex
  ∧ _InsidePolygon nan_triangle 3 nan_vertex 2 = Some OUTSIDE
  ∧ (OUTSIDE =? 2) = false.
Proof. repeat split. Qed.

(** C3, amended.  A query point whose two coordinates are, bit for bit and
    with no tolerance, those of the vertex at any position [j], neither of
    them a NaN, gets the border value. *)
Theorem exact_vertex_returns_border {C : Type} `{Coord C}
    (polygon : list Point) (j : nat) (v : Point) (p : PointOf C)
    (border_value : Z) :
  polygon !! j = Some v →
  promote (x p) = x v →
  promote (y p) = y v →
  is_nan (x v) = false →
  is_nan (y v) = false →
  _INSIDE_POLYGON polygon (Z.of_nat (length polygon)) p border_value
  = Some border_value.
Proof.
  intros Hj Hx Hy Nx Ny.
  apply (vertex_returns_border polygon j v p border_value Hj).
  - rewrite Hx. by apply same_value_refl.
  - rewrite Hy. by apply same_value_refl.
Qed.

Lemma exact_vertex_returns_border_witness :
  _InsidePolygonInt square 4 (ptInt 10 10) 2 = Some 2
  ∧ _InsidePolygonF square 4 (ptF 10 0) 2 = Some 2
  ∧ _InsidePolygon nan_triangle 3 (pt 0 10) 2 = Some 2.
Proof.
  split; [|split].
  - exact (exact_vertex_returns_border square 2 (pt 10 10) (ptInt 10 10) 2
             eq_refl eq_refl eq_refl eq_refl eq_refl).
  - exact (exact_vertex_returns_border square 3 (pt 10 0) (ptF 10 0) 2
             eq_refl eq_refl eq_refl eq_refl eq_refl).
  - exact (exact_vertex_returns_border nan_triangle 1 (pt 0 10) (pt 0 10) 2
             eq_refl eq_refl eq_refl eq_refl eq_refl).
Defined.

(** C5.  For a query point that coincides with no vertex the result is
    [INSIDE] or [OUTSIDE], the same whatever the border value. *)
Theorem border_value_unused {C : Type} `{Coord C} (polygon : list Point)
    (p : PointOf C) :
  polygon ≠ [] →
  (∀ v, v ∈ polygon → on_vertex v p = false) →
  ∃ r, (r = INSIDE ∨ r = OUTSIDE)
    ∧ ∀ border_value : Z,
        _INSIDE_POLYGON polygon (Z.of_nat (length polygon)) p border_value
        = Some r.
Proof.
  intros Hne Hno%no_vertex_hit.
  exists (if Nat.even (crossings polygon p) then OUTSIDE else INSIDE).
  split; [destruct (Nat.even _); auto|].
  intros border_value. rewrite inside_polygon_classify by done.
  unfold classify. by rewrite Hno.
Qed.

Lemma border_value_unused_witness :
  ∃ r, (r = INSIDE ∨ r = OUTSIDE)
    ∧ ∀ border_value : Z,
        _InsidePolygon square 4 (pt 5 0) border_value = Some r.
Proof.
  refine (border_value_unused square (pt 5 0) _ _).
  - discriminate.
  - apply no_vertex_hit. reflexivity.
Defined.

(** C7.  Rotating the vertex list to start at another vertex changes no
    classification. *)
Theorem rotation_invariant {C : Type} `{Coord C} (polygon : list Point)
    (k : nat) (p : PointOf C) (border_value : Z) :
  polygon ≠ [] →
  ∃ r,
    _INSIDE_POLYGON polygon (Z.of_nat (length polygon)) p border_value
    = Some r
    ∧ _INSIDE_POLYGON (rotate k polygon) (Z.of_nat (length polygon)) p
        border_value
      = Some r.
Proof.
  intros Hne. exists (classify polygon p border_value).
  split; [by apply inside_polygon_classify|].
  rewrite <- (length_rotate polygon k) at 1.
  rewrite inside_polygon_classify.
  - by rewrite classify_rotate.
  - intros E. apply Hne. apply length_zero_iff_nil.
    by rewrite <- (length_rotate polygon k), E.
Qed.

Lemma rotation_invariant_witness :
  ∃ r,
    _InsidePolygon square 4 (pt 5 5) 2 = Some r
    ∧ _InsidePolygon [pt 10 10; pt 10 0; pt 0 0; pt 0 10] 4 (pt 5 5) 2
      = Some r.
Proof.
  refine (rotation_invariant square 2 (pt 5 5) 2 _). discriminate.
Defined.

(** ** The division *)

(** C6, as the specification has it, fails on the edge from (0,-M) to (10,M)
    with the query point (0,M), [M = 2^1023]: all six coordinates are finite,
    the four guards pass, the division is evaluated with a divisor that is
    not zero, and its quotient is infinity over infinity, a NaN. *)
Lemma steep_edge_quotient_nan :
  forallb is_finite
    [x steep_p1; y steep_p1; x steep_p2; y steep_p2;
     x steep_query; y steep_query] = true
  ∧ (edge_test steep_p1 steep_p2 steep_query).2 = [divisor steep_p1 steep_p2]
  ∧ (divisor steep_p1 steep_p2 =? 0)%float = false
  ∧ is_nan (dividend steep_p1 steep_p2 steep_query
            / divisor steep_p1 steep_p2)%float = true.
Proof. repeat split. Qed.

(** C6, amended.  The division is evaluated only where the guard
    [p1.y != p2.y] held, its divisor is [p2.y - p1.y] and is never zero, so
    it is never a division by zero; and a horizontal edge never increments
    the counter, because [p.y > MIN(p1.y,p2.y)] and [p.y <= MAX(p1.y,p2.y)]
    cannot both hold on it. *)
Theorem division_guarded {C : Type} `{Coord C} (p1 p2 : Point)
    (p : PointOf C) :
  (∀ d : float, d ∈ (edge_test p1 p2 p).2 →
     d = (y p2 - y p1)%float
     ∧ (y p1 =? y p2)%float = false
     ∧ (d =? 0)%float = false)
  ∧ ((y p1 =? y p2)%float = true →
     (MIN (y p1) (y p2) <? promote (y p))%float
     && (promote (y p) <=? MAX (y p1) (y p2))%float = false
     ∧ crosses p1 p2 p = false).
Proof.
  split.
  - intros d [-> Hne]%edge_test_divisor.
    split; [done|]. split; [done|]. by apply sub_not_zero.
  - intros Hh. split.
    + by apply horizontal_y_tests.
    + by apply horizontal_not_counted.
Qed.

Lemma division_guarded_witness :
  (divisor steep_p1 steep_p2 = (y steep_p2 - y steep_p1)%float
   ∧ (y steep_p1 =? y steep_p2)%float = false
   ∧ (divisor steep_p1 steep_p2 =? 0)%float = false)
  ∧ ((MIN (y (pt 10 0)) (y (pt 0 0)) <? promote (y (pt 5 0)))%float
     && (promote (y (pt 5 0)) <=? MAX (y (pt 10 0)) (y (pt 0 0)))%float
     = false
     ∧ crosses (pt 10 0) (pt 0 0) (pt 5 0) = false).
Proof.
  split.
  - refine (proj1 (division_guarded steep_p1 steep_p2 steep_query) _ _).
    apply list_elem_of_singleton. reflexivity.
  - exact (proj2 (division_guarded (pt 10 0) (pt 0 0) (pt 5 0)) eq_refl).
Defined.

(** ** The batch entry points *)

Section Batch_claims.
Context {C : Type} `{Coord C}.

Lemma PointsInside_agrees : agrees_with_predicate (PointsInside (C:=C)).
Proof.
  intros N_vertices N_points_xy border_value m Hwf.
  destruct (PointsInside_spec N_vertices N_points_xy border_value m Hwf)
    as (m' & Hrun & _ & _ & _ & Hst & Hout).
  exists m'. split; [done|]. split; [done|].
  intros i Hi. destruct (Hout i Hi) as (point & Hp & Hr & Ho).
  by exists point, (classify (as_points (vertices m)) point
                      (to_uchar border_value)).
Qed.

Lemma PointsInside_writes_output_only :
  writes_output_only (PointsInside (C:=C)).
Proof.
  intros N_vertices N_points_xy border_value m Hwf.
  destruct (PointsInside_spec N_vertices N_points_xy border_value m Hwf)
    as (m' & Hrun & Hv & Hp & Hlen & Hst & Hout).
  exists m'. repeat (split; [done|]).
  intros i r Hi.
  destruct (Hout i) as (point & _ & _ & Ho).
  { apply lookup_lt_Some in Hi. lia. }
  rewrite Ho in Hi. injection Hi as <-.
  apply classify_byte, to_uchar_byte.
Qed.

Lemma PointsInside_narrows_border : narrows_border (PointsInside (C:=C)).
Proof.
  intros N_vertices N_points_xy border_value m i point v Hwf Hpoint Hi Hv
    Hx Hy.
  destruct (PointsInside_spec N_vertices N_points_xy border_value m Hwf)
    as (m' & Hrun & _ & _ & _ & _ & Hout).
  exists m'. split; [done|].
  destruct (Hout i Hi) as (point' & Hp' & _ & Ho).
  rewrite Hpoint in Hp'. injection Hp' as <-. rewrite Ho.
  unfold classify.
  assert (hits_vertex (as_points (vertices m)) point = true) as ->; [|done].
  apply hits_vertex_elem. exists v. split; [done|].
  unfold on_vertex. unfold same_value in Hx, Hy. by rewrite Hx, Hy.
Qed.

End Batch_claims.

(** C4.  After a call of any of the three entry points, slot [i] of the
    output holds what the predicate returns for point [i], for every
    [i < N_points_xy]; the stores go to the slots [0, 1, ...,
    N_points_xy - 1] in this order, so that no point is skipped, moved or
    left out. *)
Theorem batch_agrees_with_predicate :
  agrees_with_predicate PointsInsidePolygon
  ∧ agrees_with_predicate PointsInsidePolygonF
  ∧ agrees_with_predicate PointsInsidePolygonInt.
Proof. repeat split; apply PointsInside_agrees. Qed.

Lemma batch_agrees_with_predicate_witness :
  ∃ m', PointsInsidePolygon 4 3 2 memory_double = Some m'
    ∧ stores m' = [0; 1; 2]%nat
    ∧ ∀ i : nat, (i < 3)%nat →
        ∃ point r,
          as_points (points_xy memory_double) !! i = Some point
          ∧ _InsidePolygon square 4 point 2 = Some r
          ∧ output m' !! i = Some r.
Proof.
  refine (proj1 batch_agrees_with_predicate 4 3 2 memory_double _).
  unfold well_formed. simpl. lia.
Defined.

(** C8.  Each entry point leaves the vertex buffer and the point buffer as
    they were and stores to the slots [0 .. N_points_xy - 1] of the output
    buffer, to each once; the output buffer then holds [N_points_xy]
    bytes. *)
Theorem batch_writes_output_only :
  writes_output_only PointsInsidePolygon
  ∧ writes_output_only PointsInsidePolygonF
  ∧ writes_output_only PointsInsidePolygonInt.
Proof. repeat split; apply PointsInside_writes_output_only. Qed.

Lemma batch_writes_output_only_witness :
  ∃ m', PointsInsidePolygonF 4 3 2 memory_float = Some m'
    ∧ vertices m' = square_buffer
    ∧ points_xy m' = float_of_int <$> queries
    ∧ length (output m') = 3%nat
    ∧ stores m' = [0; 1; 2]%nat
    ∧ ∀ (i : nat) (r : Z), output m' !! i = Some r → 0 ≤ r < 256.
Proof.
  refine (proj1 (proj2 batch_writes_output_only) 4 3 2 memory_float _).
  unfold well_formed. simpl. lia.
Defined.

(** C10.  Each entry point reduces the border value modulo 256 before it
    calls the predicate: the byte stored for a query point that sits on a
    vertex is [border_value mod 256]; 257 is stored as 1. *)
Theorem border_value_narrowed :
  narrows_border PointsInsidePolygon
  ∧ narrows_border PointsInsidePolygonF
  ∧ narrows_border PointsInsidePolygonInt.
Proof. repeat split; apply PointsInside_narrows_border. Qed.

Lemma border_value_narrowed_witness :
  ∃ m', PointsInsidePolygonInt 4 3 257 memory_int = Some m'
    ∧ output m' !! 2%nat = Some 1.
Proof.
  refine (proj2 (proj2 border_value_narrowed) 4 3 257 memory_int 2%nat
            (ptInt 0 0) (pt 0 0) _ eq_refl _ _ eq_refl eq_refl).
  - unfold well_formed. simpl. lia.
  - simpl. lia.
  - apply list_elem_of_here.
Defined.



(** * Beyond the well-formed polygon

    What the predicate and the entry points do at the edges of their
    contract: a vertex count that does not match the buffer, coordinates
    that are NaN, points outside the bounding box, repeated vertices,
    buffers larger than the counts. *)

(** ** More facts about doubles *)

Module FloatOrder.

Lemma SFcompare_refl (a : spec_float) :
  a ≠ S754_nan → SFcompare a a = Some Eq.
Proof.
  destruct a as [s|s| |s m e]; try done; intros _; simpl.
  - by destruct s.
  - rewrite Z.compare_refl.
    change (PosDef.Pos.compare_cont Eq) with Pos.compare.
    rewrite Pos.compare_refl. by destruct s.
Qed.

(** A double that differs from itself is the NaN of the specification. *)
Lemma is_nan_spec (a : float) : is_nan a = true → Prim2SF a = S754_nan.
Proof.
  unfold is_nan. rewrite FloatAxioms.eqb_spec. unfold SFeqb.
  intros Hn. destruct (Prim2SF a) as [s|s| |s m e] eqn:E; [..|done|].
  all: by rewrite SFcompare_refl in Hn.
Qed.

Lemma SFcompare_nan_r (a : spec_float) : SFcompare a S754_nan = None.
Proof. by destruct a. Qed.

(** No comparison holds of a NaN. *)
Lemma nan_compares_false (a b : float) :
  is_nan a = true →
  (a =? b)%float = false ∧ (b =? a)%float = false
  ∧ (a <? b)%float = false ∧ (b <? a)%float = false
  ∧ (a <=? b)%float = false ∧ (b <=? a)%float = false.
Proof.
  intros Hn%is_nan_spec.
  rewrite !FloatAxioms.eqb_spec, !ltb_spec, !leb_spec.
  unfold SFeqb, SFltb, SFleb. rewrite Hn, SFcompare_nan_r. done.
Qed.

(** [a < b] excludes [b < a]. *)
Lemma ltb_asym (a b : float) :
  (a <? b)%float = true → (b <? a)%float = false.
Proof.
  rewrite !ltb_spec. unfold SFltb.
  destruct (SFcompare (Prim2SF a) (Prim2SF b)) as [c|] eqn:E; [|done].
  rewrite (FloatFacts.SFcompare_antisym _ _ _ E). by destruct c.
Qed.

(** [a < b] excludes [a == b], in either order. *)
Lemma ltb_not_eqb (a b : float) :
  (a <? b)%float = true →
  (a =? b)%float = false ∧ (b =? a)%float = false.
Proof.
  rewrite !FloatAxioms.eqb_spec, !ltb_spec. unfold SFltb, SFeqb.
  destruct (SFcompare (Prim2SF a) (Prim2SF b)) as [c|] eqn:E; [|done].
  rewrite (FloatFacts.SFcompare_antisym _ _ _ E). by destruct c.
Qed.

End FloatOrder.

(** ** The vertex count and the vertex buffer *)

Section Vertex_count.
Context {C : Type} `{Coord C}.
Implicit Types (polygon : list Point) (p : PointOf C).

(** The loop reads the cells [0 .. N-1] only. *)
Lemma scan_same_cells polygon (polygon' : list Point) (N : Z) p
    (border_value : Z) (n : nat) (i : Z) (p1 : Point) (counter : Z) :
  0 < N → 0 ≤ i →
  (∀ k : nat, (k < Z.to_nat N)%nat → polygon !! k = polygon' !! k) →
  scan polygon N p border_value n i p1 counter
  = scan polygon' N p border_value n i p1 counter.
Proof.
  intros HN Hi Hsame. revert i p1 counter Hi.
  induction n as [|n IH]; intros i p1 counter Hi; [done|].
  cbn [scan]. destruct (on_vertex p1 p); [done|].
  pose proof (Z.rem_bound_pos i N Hi HN) as Hrem.
  destruct (Z.ltb_spec (Z.rem i N) 0) as [?|_]; [lia|].
  rewrite <- (Hsame (Z.to_nat (Z.rem i N))) by lia.
  destruct (polygon !! Z.to_nat (Z.rem i N)) as [p2|]; [|done].
  cbn [mbind option_bind]. apply IH. lia.
Qed.

Lemma inside_polygon_prefix polygon (rest : list Point) p (border_value : Z) :
  polygon ≠ [] →
  _INSIDE_POLYGON (polygon ++ rest) (Z.of_nat (length polygon)) p border_value
  = Some (classify polygon p border_value).
Proof.
  intros Hne. rewrite <- (inside_polygon_classify polygon p border_value Hne).
  unfold _INSIDE_POLYGON.
  assert (0 < length polygon)%nat as Hlen
    by (destruct polygon; [done|simpl; lia]).
  rewrite lookup_app_l by done.
  destruct (polygon !! 0%nat) as [v0|]; [|done]. cbn [mbind option_bind].
  apply scan_same_cells; [lia|lia|].
  intros k Hk. apply lookup_app_l. lia.
Qed.

Lemma scan_range polygon (N : Z) p (border_value : Z) (n : nat) (i : Z)
    (p1 : Point) (counter r : Z) :
  scan polygon N p border_value n i p1 counter = Some r →
  r = INSIDE ∨ r = OUTSIDE ∨ r = border_value.
Proof.
  revert i p1 counter. induction n as [|n IH]; intros i p1 counter; cbn [scan].
  - intros [= <-]. unfold parity_result. destruct (_ =? _); auto.
  - destruct (on_vertex p1 p); [intros [= <-]; auto|].
    destruct (if Z.rem i N <? 0 then None else _) as [p2|]; [|done].
    cbn [mbind option_bind]. apply IH.
Qed.

(** Where no vertex is hit and no edge is counted, the result is
    [OUTSIDE]. *)
Lemma untouched_outside polygon p (border_value : Z) :
  polygon ≠ [] →
  (∀ v, v ∈ polygon → on_vertex v p = false) →
  (∀ p1 p2 : Point, p1 ∈ polygon → p2 ∈ polygon → crosses p1 p2 p = false) →
  _INSIDE_POLYGON polygon (Z.of_nat (length polygon)) p border_value
  = Some OUTSIDE.
Proof.
  intros Hne Hno%no_vertex_hit Hcross.
  rewrite inside_polygon_classify by done. unfold classify. rewrite Hno.
  assert (crossings polygon p = 0%nat) as ->; [|done].
  unfold crossings, crossings_in.
  assert (∀ e, e ∈ edges polygon → crosses e.1 e.2 p = false) as He.
  { intros [p1 p2] He. unfold edges in He. apply Hcross.
    - by apply elem_of_zip_l in He.
    - apply elem_of_zip_r in He. by apply elem_of_rotate in He. }
  induction (edges polygon) as [|e es IH]; [done|].
  cbn [fmap list_fmap sum_list_with]. rewrite He by left.
  simpl. apply IH. intros e' He'. apply He. by right.
Qed.

End Vertex_count.

(** X1.  Cells of the vertex buffer after the first [N] are never read: with
    anything appended to a polygon of [N >= 1] vertices the predicate
    returns what it returns without. *)
Theorem trailing_cells_ignored {C : Type} `{Coord C}
    (polygon rest : list Point) (p : PointOf C) (border_value : Z) :
  polygon ≠ [] →
  ∃ r,
    _INSIDE_POLYGON polygon (Z.of_nat (length polygon)) p border_value
    = Some r
    ∧ _INSIDE_POLYGON (polygon ++ rest) (Z.of_nat (length polygon)) p
        border_value
      = Some r.
Proof.
  intros Hne. exists (classify polygon p border_value). split.
  - by apply inside_polygon_classify.
  - by apply inside_polygon_prefix.
Qed.

Lemma trailing_cells_ignored_witness :
  ∃ r,
    _InsidePolygonInt square 4 (ptInt 5 5) 2 = Some r
    ∧ _InsidePolygonInt (square ++ [pt 5 5; pt 99 99]) 4 (ptInt 5 5) 2
      = Some r.
Proof.
  refine (trailing_cells_ignored square [pt 5 5; pt 99 99] (ptInt 5 5) 2 _).
  discriminate.
Defined.

(** X2.  With a vertex count of zero or less the loop body never runs: the
    result is [OUTSIDE] for every point, also for a point that sits on
    [polygon[0]]. *)
Theorem nonpositive_count_outside {C : Type} `{Coord C}
    (polygon : list Point) (v0 : Point) (N : Z) (p : PointOf C)
    (border_value : Z) :
  polygon !! 0%nat = Some v0 →
  N ≤ 0 →
  _INSIDE_POLYGON polygon N p border_value = Some OUTSIDE.
Proof.
  intros Hv0 HN. unfold _INSIDE_POLYGON. rewrite Hv0.
  cbn [mbind option_bind].
  by replace (Z.to_nat N) with 0%nat by lia.
Qed.

Lemma nonpositive_count_outside_witness :
  _InsidePolygon square 0 (pt 0 0) 2 = Some OUTSIDE
  ∧ _InsidePolygon square (-3) (pt 5 5) 2 = Some OUTSIDE.
Proof.
  split.
  - refine (nonpositive_count_outside square (pt 0 0) 0 (pt 0 0) 2 eq_refl _).
    lia.
  - refine (nonpositive_count_outside square (pt 0 0) (-3) (pt 5 5) 2
              eq_refl _).
    lia.
Defined.

(** X3.  Whatever the buffer and the count, a value the predicate returns
    is [INSIDE], [OUTSIDE] or the border value it was given. *)
Theorem result_is_sentinel_or_border {C : Type} `{Coord C}
    (polygon : list Point) (N : Z) (p : PointOf C) (border_value r : Z) :
  _INSIDE_POLYGON polygon N p border_value = Some r →
  r = INSIDE ∨ r = OUTSIDE ∨ r = border_value.
Proof.
  unfold _INSIDE_POLYGON.
  destruct (polygon !! 0%nat) as [v0|]; [|done]. cbn [mbind option_bind].
  apply scan_range.
Qed.

Lemma result_is_sentinel_or_border_witness :
  (1 = INSIDE ∨ 1 = OUTSIDE ∨ 1 = 2)
  ∧ (2 = INSIDE ∨ 2 = OUTSIDE ∨ 2 = 2).
Proof.
  split.
  - exact (result_is_sentinel_or_border square 4 (pt 5 5) 2 1 eq_refl).
  - exact (result_is_sentinel_or_border square 3 (ptF 10 10) 2 2 eq_refl).
Defined.

(** ** Points the loop cannot count *)

Section Uncounted.
Context {C : Type} `{Coord C}.
Implicit Types (polygon : list Point) (p : PointOf C).

Lemma MAX_cases (a b : float) : MAX a b = a ∨ MAX a b = b.
Proof. unfold MAX. destruct (b <? a)%float; auto. Qed.

Lemma MIN_cases (a b : float) : MIN a b = a ∨ MIN a b = b.
Proof. unfold MIN. destruct (a <? b)%float; auto. Qed.

Lemma nan_x_untouched (p1 p2 : Point) p :
  is_nan (promote (x p)) = true →
  on_vertex p1 p = false ∧ crosses p1 p2 p = false.
Proof.
  intros Hn. split.
  - unfold on_vertex.
    by rewrite (proj1 (proj2 (FloatOrder.nan_compares_false _ (x p1) Hn))).
  - unfold crosses, edge_test.
    rewrite (proj1 (proj2 (proj2 (proj2 (proj2
               (FloatOrder.nan_compares_false _ (MAX (x p1) (x p2)) Hn)))))).
    by case_guards.
Qed.

Lemma nan_y_untouched (p1 p2 : Point) p :
  is_nan (promote (y p)) = true →
  on_vertex p1 p = false ∧ crosses p1 p2 p = false.
Proof.
  intros Hn. split.
  - unfold on_vertex.
    rewrite (proj1 (proj2 (FloatOrder.nan_compares_false _ (y p1) Hn))).
    by destruct (x p1 =? promote (x p))%float.
  - unfold crosses, edge_test.
    by rewrite (proj1 (proj2 (proj2 (proj2
                  (FloatOrder.nan_compares_false _ (MIN (y p1) (y p2)) Hn))))).
Qed.

(** An edge whose two ends are left of the point is not counted. *)
Lemma right_of_edge (p1 p2 : Point) p :
  (x p1 <? promote (x p))%float = true →
  (x p2 <? promote (x p))%float = true →
  crosses p1 p2 p = false.
Proof.
  intros H1 H2. unfold crosses, edge_test.
  assert ((promote (x p) <=? MAX (x p1) (x p2))%float = false) as ->
    by (destruct (MAX_cases (x p1) (x p2)) as [-> | ->];
        by apply FloatFacts.ltb_not_leb).
  by case_guards.
Qed.

(** An edge whose two ends are below the point is not counted. *)
Lemma above_edge (p1 p2 : Point) p :
  (y p1 <? promote (y p))%float = true →
  (y p2 <? promote (y p))%float = true →
  crosses p1 p2 p = false.
Proof.
  intros H1 H2. unfold crosses, edge_test.
  assert ((promote (y p) <=? MAX (y p1) (y p2))%float = false) as ->
    by (destruct (MAX_cases (y p1) (y p2)) as [-> | ->];
        by apply FloatFacts.ltb_not_leb).
  by case_guards.
Qed.

(** An edge whose two ends are above the point is not counted. *)
Lemma below_edge (p1 p2 : Point) p :
  (promote (y p) <? y p1)%float = true →
  (promote (y p) <? y p2)%float = true →
  crosses p1 p2 p = false.
Proof.
  intros H1 H2. unfold crosses, edge_test.
  assert ((MIN (y p1) (y p2) <? promote (y p))%float = false) as ->
    by (destruct (MIN_cases (y p1) (y p2)) as [-> | ->];
        by apply FloatOrder.ltb_asym).
  done.
Qed.

Lemma off_vertex_x (v : Point) p :
  (x v <? promote (x p))%float = true → on_vertex v p = false.
Proof.
  intros [Hne _]%FloatOrder.ltb_not_eqb. unfold on_vertex. by rewrite Hne.
Qed.

Lemma off_vertex_y (v : Point) p :
  (y v <? promote (y p))%float = true
  ∨ (promote (y p) <? y v)%float = true →
  on_vertex v p = false.
Proof.
  unfold on_vertex.
  intros [[Hne _]%FloatOrder.ltb_not_eqb|[_ Hne]%FloatOrder.ltb_not_eqb];
    rewrite Hne; by destruct (x v =? promote (x p))%float.
Qed.

(** An edge from a vertex to itself is not counted. *)
Lemma crosses_self (v : Point) p : crosses v v p = false.
Proof.
  destruct (y v =? y v)%float eqn:E.
  - by apply horizontal_not_counted.
  - assert (is_nan (y v) = true) as Hn by (unfold is_nan; by rewrite E).
    unfold crosses, edge_test.
    assert (MIN (y v) (y v) = y v) as ->
      by (by destruct (MIN_cases (y v) (y v))).
    by rewrite (proj1 (proj2 (proj2
                  (FloatOrder.nan_compares_false _ (promote (y p)) Hn)))).
Qed.

End Uncounted.

(** ** Repeated vertices *)

Lemma rotate_app_length {A : Type} (l1 l2 : list A) :
  rotate (length l1) (l1 ++ l2) = l2 ++ l1.
Proof.
  unfold rotate. rewrite length_app.
  destruct l2 as [|a l2].
  - rewrite Nat.add_0_r, app_nil_r. simpl.
    destruct l1 as [|b l1]; [done|].
    rewrite Nat.Div0.mod_same. by rewrite drop_0, take_0, app_nil_r.
  - rewrite Nat.mod_small by (simpl; lia).
    by rewrite drop_app_length, take_app_length.
Qed.

Lemma edges_cons (a : Point) (l : list Point) :
  edges (a :: l) = zip (a :: l) (l ++ [a]).
Proof.
  unfold edges.
  change (rotate 1 (a :: l)) with (rotate (length [a]) ([a] ++ l)).
  by rewrite rotate_app_length.
Qed.

Section Repeated.
Context {C : Type} `{Coord C}.
Implicit Types (polygon : list Point) (p : PointOf C).

Lemma classify_app_comm (l1 l2 : list Point) p (border_value : Z) :
  classify (l1 ++ l2) p border_value = classify (l2 ++ l1) p border_value.
Proof.
  by rewrite <- (rotate_app_length l1 l2), classify_rotate.
Qed.

Lemma classify_repeat_head (v : Point) (rest : list Point) p
    (border_value : Z) :
  classify (v :: v :: rest) p border_value
  = classify (v :: rest) p border_value.
Proof.
  unfold classify, hits_vertex, crossings.
  rewrite (edges_cons v (v :: rest)), (edges_cons v rest).
  cbn [existsb zip_with app]. rewrite orb_assoc, orb_diag.
  unfold crossings_in. cbn [fmap list_fmap sum_list_with fst snd].
  by rewrite crosses_self.
Qed.

Lemma classify_repeat (l1 l2 : list Point) (v : Point) p (border_value : Z) :
  classify (l1 ++ v :: v :: l2) p border_value
  = classify (l1 ++ v :: l2) p border_value.
Proof.
  rewrite (classify_app_comm l1 (v :: v :: l2)),
    (classify_app_comm l1 (v :: l2)).
  apply classify_repeat_head.
Qed.

End Repeated.

(** X4.  A query point with a NaN coordinate hits no vertex and crosses no
    edge: on every polygon it is [OUTSIDE]. *)
Theorem nan_point_outside {C : Type} `{Coord C} (polygon : list Point)
    (p : PointOf C) (border_value : Z) :
  polygon ≠ [] →
  is_nan (promote (x p)) = true ∨ is_nan (promote (y p)) = true →
  _INSIDE_POLYGON polygon (Z.of_nat (length polygon)) p border_value
  = Some OUTSIDE.
Proof.
  intros Hne Hnan. apply untouched_outside; [done|..].
  - intros v _. destruct Hnan as [Hn|Hn].
    + apply (nan_x_untouched v v p Hn).
    + apply (nan_y_untouched v v p Hn).
  - intros p1 p2 _ _. destruct Hnan as [Hn|Hn].
    + apply (nan_x_untouched p1 p2 p Hn).
    + apply (nan_y_untouched p1 p2 p Hn).
Qed.

Lemma nan_point_outside_witness :
  _InsidePolygon square 4 nan_query 2 = Some OUTSIDE
  ∧ _InsidePolygonF square 4 (mkPoint (float_of_int 5) S754_nan) 2
    = Some OUTSIDE.
Proof.
  split.
  - refine (nan_point_outside square nan_query 2 _ (or_introl eq_refl)).
    discriminate.
  - refine (nan_point_outside square (mkPoint (float_of_int 5) S754_nan) 2 _
              (or_intror eq_refl)).
    discriminate.
Defined.

(** X5.  A query point that lies right of every vertex, above every vertex
    or below every vertex is [OUTSIDE]: the guards on [p.x] and [p.y]
    reject every edge before any interpolation. *)
Theorem beyond_bounding_box_outside {C : Type} `{Coord C}
    (polygon : list Point) (p : PointOf C) (border_value : Z) :
  polygon ≠ [] →
  (∀ v, v ∈ polygon → (x v <? promote (x p))%float = true)
  ∨ (∀ v, v ∈ polygon → (y v <? promote (y p))%float = true)
  ∨ (∀ v, v ∈ polygon → (promote (y p) <? y v)%float = true) →
  _INSIDE_POLYGON polygon (Z.of_nat (length polygon)) p border_value
  = Some OUTSIDE.
Proof.
  intros Hne [Hright|[Habove|Hbelow]]; apply untouched_outside; try done.
  - intros v Hv. by apply off_vertex_x, Hright.
  - intros p1 p2 H1 H2. apply right_of_edge; by apply Hright.
  - intros v Hv. apply off_vertex_y. left. by apply Habove.
  - intros p1 p2 H1 H2. apply above_edge; by apply Habove.
  - intros v Hv. apply off_vertex_y. right. by apply Hbelow.
  - intros p1 p2 H1 H2. apply below_edge; by apply Hbelow.
Qed.

Lemma beyond_bounding_box_outside_witness :
  _InsidePolygonInt square 4 (ptInt 15 5) 2 = Some OUTSIDE
  ∧ _InsidePolygonInt square 4 (ptInt 5 11) 2 = Some OUTSIDE
  ∧ _InsidePolygonInt square 4 (ptInt 5 (-1)) 2 = Some OUTSIDE.
Proof.
  split; [|split].
  - refine (beyond_bounding_box_outside square (ptInt 15 5) 2 _
              (or_introl _)); [discriminate|].
    apply Forall_forall. repeat constructor.
  - refine (beyond_bounding_box_outside square (ptInt 5 11) 2 _
              (or_intror (or_introl _))); [discriminate|].
    apply Forall_forall. repeat constructor.
  - refine (beyond_bounding_box_outside square (ptInt 5 (-1)) 2 _
              (or_intror (or_intror _))); [discriminate|].
    apply Forall_forall. repeat constructor.
Defined.

(** X6.  Writing a vertex twice in a row, at any place of the list, changes
    no classification: the edge from the vertex to itself is never
    counted. *)
Theorem repeated_vertex_ignored {C : Type} `{Coord C}
    (before after : list Point) (v : Point) (p : PointOf C)
    (border_value : Z) :
  ∃ r,
    _INSIDE_POLYGON (before ++ v :: after)
      (Z.of_nat (length (before ++ v :: after))) p border_value
    = Some r
    ∧ _INSIDE_POLYGON (before ++ v :: v :: after)
        (Z.of_nat (length (before ++ v :: v :: after))) p border_value
      = Some r.
Proof.
  exists (classify (before ++ v :: after) p border_value). split.
  - apply inside_polygon_classify. by destruct before.
  - rewrite inside_polygon_classify by (by destruct before).
    by rewrite classify_repeat.
Qed.

(** X7.  A polygon handed over as a closed ring, its first vertex written
    again at the end and counted, is classified like the open one. *)
Theorem closing_vertex_ignored {C : Type} `{Coord C}
    (polygon : list Point) (v0 : Point) (p : PointOf C) (border_value : Z) :
  polygon !! 0%nat = Some v0 →
  ∃ r,
    _INSIDE_POLYGON polygon (Z.of_nat (length polygon)) p border_value
    = Some r
    ∧ _INSIDE_POLYGON (polygon ++ [v0]) (Z.of_nat (length polygon) + 1) p
        border_value
      = Some r.
Proof.
  intros Hv0. destruct polygon as [|v rest]; [done|].
  injection Hv0 as ->.
  exists (classify (v0 :: rest) p border_value). split.
  - by apply inside_polygon_classify.
  - replace (Z.of_nat (length (v0 :: rest)) + 1)
      with (Z.of_nat (length ((v0 :: rest) ++ [v0])))
      by (rewrite length_app; simpl; lia).
    rewrite inside_polygon_classify by done.
    rewrite (classify_app_comm (v0 :: rest) [v0]).
    by rewrite <- classify_repeat_head.
Qed.

Lemma closing_vertex_ignored_witness :
  ∃ r,
    _InsidePolygon square 4 (pt 5 5) 2 = Some r
    ∧ _InsidePolygon (square ++ [pt 0 0]) 5 (pt 5 5) 2 = Some r.
Proof.
  exact (closing_vertex_ignored square (pt 0 0) (pt 5 5) 2 eq_refl).
Defined.

(** ** The batch loop on roomy buffers *)

Lemma as_points_enough {C : Type} (buf : list C) (n : Z) :
  2 * n ≤ Z.of_nat (length buf) → (Z.to_nat n ≤ length (as_points buf))%nat.
Proof.
  intros Hn. rewrite length_as_points, Nat.div2_div.
  apply Nat.div_le_lower_bound; lia.
Qed.

Lemma as_points_app {C : Type} (k : nat) (buf1 buf2 : list C) :
  length buf1 = (2 * k)%nat →
  as_points (buf1 ++ buf2) = as_points buf1 ++ as_points buf2.
Proof.
  revert buf1. induction k as [|k IH]; intros buf1 Hlen.
  - by destruct buf1.
  - destruct buf1 as [|a [|b buf1]]; simpl in Hlen; try lia.
    simpl. f_equal. apply IH. lia.
Qed.

Section Roomy.
Context {C : Type} `{Coord C}.

Lemma inside_polygon_take (polygon : list Point) (N : Z) (p : PointOf C)
    (border_value : Z) :
  1 ≤ N → (Z.to_nat N ≤ length polygon)%nat →
  _INSIDE_POLYGON polygon N p border_value
  = Some (classify (take (Z.to_nat N) polygon) p border_value).
Proof.
  intros HN Hlen.
  pose proof (inside_polygon_prefix (take (Z.to_nat N) polygon)
                (drop (Z.to_nat N) polygon) p border_value) as Hp.
  rewrite take_drop, length_take, Nat.min_l, Z2Nat.id in Hp by lia.
  apply Hp. intros E. apply (f_equal length) in E.
  rewrite length_take in E. simpl in E. lia.
Qed.

Lemma batch_loop_fits (N_vertices border : Z) (n i : nat) (m : memory C) :
  1 ≤ N_vertices →
  (Z.to_nat N_vertices ≤ length (as_points (vertices m)))%nat →
  (i + n ≤ length (as_points (points_xy m)))%nat →
  (i + n ≤ length (output m))%nat →
  ∃ m', batch_loop N_vertices border n i m = Some m'
    ∧ vertices m' = vertices m
    ∧ points_xy m' = points_xy m
    ∧ length (output m') = length (output m)
    ∧ stores m' = stores m ++ seq i n
    ∧ (∀ (j : nat) (point : PointOf C),
         (i ≤ j < i + n)%nat →
         as_points (points_xy m) !! j = Some point →
         output m' !! j
         = Some (classify (take (Z.to_nat N_vertices)
                             (as_points (vertices m))) point border))
    ∧ (∀ j : nat, ¬ (i ≤ j < i + n)%nat → output m' !! j = output m !! j).
Proof.
  intros HN. revert i m. induction n as [|n IH]; intros i m Hvs Hpts Hout.
  - exists m. simpl. rewrite app_nil_r. repeat split; try done.
    intros j point Hj. lia.
  - cbn [batch_loop].
    destruct (lookup_lt_is_Some_2 (as_points (points_xy m)) i)
      as [point Hpoint]; [lia|].
    rewrite Hpoint. cbn [mbind option_bind].
    rewrite inside_polygon_take by done. cbn [mbind option_bind].
    unfold store at 1. rewrite decide_True by lia. cbn [mbind option_bind].
    set (r := classify _ point border).
    set (m1 := mkMemory (vertices m) (points_xy m) (<[i:=r]> (output m))
                        (stores m ++ [i])).
    destruct (IH (S i) m1) as (m' & Hrun & Hv & Hp & Hlen & Hst & Hin & Hout');
      try done.
    { simpl. lia. }
    { simpl. rewrite length_insert. lia. }
    simpl in Hv, Hp, Hlen, Hst, Hin, Hout'.
    exists m'. split; [exact Hrun|].
    split; [done|]. split; [done|].
    split; [by rewrite Hlen, length_insert|].
    split; [by rewrite Hst, <- app_assoc|].
    split.
    + intros j q Hj Hq. destruct (decide (j = i)) as [->|Hji].
      * rewrite Hout' by lia. rewrite list_lookup_insert_eq by lia.
        rewrite Hpoint in Hq. by injection Hq as <-.
      * apply Hin; [lia|done].
    + intros j Hj. rewrite Hout' by lia.
      by rewrite list_lookup_insert_ne by lia.
Qed.

(** A call that fits its buffers returns, and leaves this behind. *)
Lemma PointsInside_fits (N_vertices N_points_xy border_value : Z)
    (m : memory C) :
  fits m N_vertices N_points_xy →
  ∃ m', PointsInside N_vertices N_points_xy border_value m = Some m'
    ∧ vertices m' = vertices m
    ∧ points_xy m' = points_xy m
    ∧ length (output m') = length (output m)
    ∧ stores m' = stores m ++ seq 0 (Z.to_nat N_points_xy)
    ∧ (∀ i : nat, (i < Z.to_nat N_points_xy)%nat →
         ∃ point,
           as_points (points_xy m) !! i = Some point
           ∧ _INSIDE_POLYGON (as_points (vertices m)) N_vertices point
               (to_uchar border_value)
             = Some (classify (take (Z.to_nat N_vertices)
                                 (as_points (vertices m))) point
                       (to_uchar border_value))
           ∧ output m' !! i
             = Some (classify (take (Z.to_nat N_vertices)
                                 (as_points (vertices m))) point
                       (to_uchar border_value)))
    ∧ (∀ i : nat, (Z.to_nat N_points_xy ≤ i)%nat →
         output m' !! i = output m !! i).
Proof.
  intros (HNv & HNp & Hv & Hp & Ho).
  pose proof (as_points_enough _ _ Hv) as Lv.
  pose proof (as_points_enough _ _ Hp) as Lp.
  destruct (batch_loop_fits N_vertices (to_uchar border_value)
              (Z.to_nat N_points_xy) 0 m)
    as (m' & Hrun & Hv' & Hp' & Hlen & Hst & Hin & Hkeep); try done; try lia.
  exists m'. unfold PointsInside. cbv zeta.
  split; [exact Hrun|]. split; [done|]. split; [done|].
  split; [done|]. split; [done|]. split.
  - intros i Hi.
    destruct (lookup_lt_is_Some_2 (as_points (points_xy m)) i)
      as [point Hpoint]; [lia|].
    exists point. split; [done|]. split.
    + by apply inside_polygon_take.
    + apply Hin; [lia|done].
  - intros i Hi. apply Hkeep. lia.
Qed.

End Roomy.

Lemma classify_cases {C : Type} `{Coord C} (polygon : list Point)
    (p : PointOf C) (border : Z) :
  classify polygon p border = INSIDE
  ∨ classify polygon p border = OUTSIDE
  ∨ classify polygon p border = border.
Proof.
  unfold classify. destruct (hits_vertex polygon p); [auto|].
  destruct (Nat.even _); auto.
Qed.

Lemma classify_off_vertex {C : Type} `{Coord C} (polygon : list Point)
    (p : PointOf C) (border1 border2 : Z) :
  (∀ v, v ∈ polygon → on_vertex v p = false) →
  classify polygon p border1 = classify polygon p border2.
Proof.
  intros Hno%no_vertex_hit. unfold classify. by rewrite Hno.
Qed.

Lemma fits_after {C : Type} (m m' : memory C) (N_vertices N_points_xy : Z) :
  fits m N_vertices N_points_xy →
  vertices m' = vertices m → points_xy m' = points_xy m →
  length (output m') = length (output m) →
  fits m' N_vertices N_points_xy.
Proof.
  unfold fits. intros (? & ? & ? & ? & ?) -> -> ->. done.
Qed.

Section Roomy_entries.
Context {C : Type} `{Coord C}.

Lemma PointsInside_keeps_slots :
  keeps_slots_beyond_count (PointsInside (C:=C)).
Proof.
  intros N_vertices N_points_xy border_value m Hfits.
  destruct (PointsInside_fits N_vertices N_points_xy border_value m Hfits)
    as (m' & Hrun & Hv & Hp & Hlen & Hst & Hin & Hkeep).
  exists m'. repeat (split; [done|]). split; [|done].
  intros i Hi. destruct (Hin i Hi) as (point & Hpt & Hr & Ho).
  by exists point, (classify (take (Z.to_nat N_vertices)
                                (as_points (vertices m))) point
                      (to_uchar border_value)).
Qed.

Lemma PointsInside_empty : empty_batch_is_noop (PointsInside (C:=C)).
Proof.
  intros N_vertices N_points_xy border_value m Hn.
  unfold PointsInside. cbv zeta.
  by replace (Z.to_nat N_points_xy) with 0%nat by lia.
Qed.

Lemma PointsInside_border_modulo : border_modulo_256 (PointsInside (C:=C)).
Proof.
  intros N_vertices N_points_xy border_value k m.
  unfold PointsInside, to_uchar. cbv zeta.
  by rewrite (Z.mul_comm 256 k), Z_mod_plus_full.
Qed.

Lemma PointsInside_border_reach :
  border_reaches_vertex_slots_only (PointsInside (C:=C)).
Proof.
  intros N_vertices N_points_xy border1 border2 m i point Hfits Hi Hpoint Hno.
  destruct (PointsInside_fits N_vertices N_points_xy border1 m Hfits)
    as (m1 & Hrun1 & _ & _ & _ & _ & Hin1 & _).
  destruct (PointsInside_fits N_vertices N_points_xy border2 m Hfits)
    as (m2 & Hrun2 & _ & _ & _ & _ & Hin2 & _).
  destruct (Hin1 i Hi) as (q1 & Hq1 & _ & Ho1).
  destruct (Hin2 i Hi) as (q2 & Hq2 & _ & Ho2).
  rewrite Hpoint in Hq1, Hq2. injection Hq1 as <-. injection Hq2 as <-.
  exists m1, m2, (classify (take (Z.to_nat N_vertices)
                              (as_points (vertices m))) point
                    (to_uchar border1)).
  split; [done|]. split; [done|]. split; [done|].
  rewrite Ho2. f_equal. by apply classify_off_vertex.
Qed.

Lemma PointsInside_repeatable : repeatable (PointsInside (C:=C)).
Proof.
  intros N_vertices N_points_xy border_value m Hfits.
  destruct (PointsInside_fits N_vertices N_points_xy border_value m Hfits)
    as (m' & Hrun & Hv & Hp & Hlen & _ & Hin & _).
  pose proof (fits_after m m' _ _ Hfits Hv Hp Hlen) as Hfits'.
  destruct (PointsInside_fits N_vertices N_points_xy border_value m' Hfits')
    as (m'' & Hrun' & _ & _ & Hlen' & _ & Hin' & Hkeep').
  exists m', m''. split; [done|]. split; [done|].
  apply list_eq. intros i.
  destruct (decide (i < Z.to_nat N_points_xy)%nat) as [Hi|Hi].
  - destruct (Hin i Hi) as (q & Hq & _ & Ho).
    destruct (Hin' i Hi) as (q' & Hq' & _ & Ho').
    rewrite Hp, Hq in Hq'. injection Hq' as <-.
    rewrite Ho, Ho'. by rewrite Hv.
  - apply Hkeep'. lia.
Qed.

Lemma PointsInside_splits : splits (PointsInside (C:=C)).
Proof.
  intros N_vertices border_value vs pts1 pts2 out1 out2 log k1 k2
    HN Hvs Hp1 Ho1 Hp2 Ho2.
  set (m := mkMemory vs (pts1 ++ pts2) (out1 ++ out2) log).
  set (m1 := mkMemory vs pts1 out1 log).
  set (m2 := mkMemory vs pts2 out2 log).
  assert (fits m N_vertices (Z.of_nat (k1 + k2))) as F
    by (unfold fits; simpl; rewrite !length_app; lia).
  assert (fits m1 N_vertices (Z.of_nat k1)) as F1
    by (unfold fits; simpl; lia).
  assert (fits m2 N_vertices (Z.of_nat k2)) as F2
    by (unfold fits; simpl; lia).
  destruct (PointsInside_fits _ _ border_value m F)
    as (r & Hr & _ & _ & Hl & _ & Hin & _).
  destruct (PointsInside_fits _ _ border_value m1 F1)
    as (r1 & Hr1 & _ & _ & Hl1 & _ & Hin1 & _).
  destruct (PointsInside_fits _ _ border_value m2 F2)
    as (r2 & Hr2 & _ & _ & Hl2 & _ & Hin2 & _).
  exists r, r1, r2. split; [done|]. split; [done|]. split; [done|].
  simpl in Hl, Hl1, Hl2, Hin, Hin1, Hin2. rewrite length_app in Hl.
  rewrite (as_points_app k1 pts1 pts2 Hp1) in Hin.
  pose proof (length_as_points_even pts1 (Z.of_nat k1) ltac:(lia)) as L1.
  rewrite !Nat2Z.id in *.
  apply list_eq. intros i.
  destruct (decide (i < k1)%nat) as [Hi|Hi].
  - rewrite lookup_app_l by lia.
    destruct (Hin i ltac:(lia)) as (q & Hq & _ & Ho).
    destruct (Hin1 i Hi) as (q1 & Hq1 & _ & Ho').
    rewrite lookup_app_l, Hq1 in Hq by lia. injection Hq as <-.
    by rewrite Ho, Ho'.
  - rewrite lookup_app_r by lia. rewrite Hl1, Ho1.
    destruct (decide (i < k1 + k2)%nat) as [Hi2|Hi2].
    + destruct (Hin i Hi2) as (q & Hq & _ & Ho).
      destruct (Hin2 (i - k1)%nat ltac:(lia)) as (q2 & Hq2 & _ & Ho').
      rewrite lookup_app_r, L1, Hq2 in Hq by lia. injection Hq as <-.
      by rewrite Ho, Ho'.
    + rewrite !lookup_ge_None_2 by lia. done.
Qed.

Lemma PointsInside_stores_sentinel :
  stores_sentinel_or_border (PointsInside (C:=C)).
Proof.
  intros N_vertices N_points_xy border_value m i Hfits Hi.
  destruct (PointsInside_fits N_vertices N_points_xy border_value m Hfits)
    as (m' & Hrun & _ & _ & _ & _ & Hin & _).
  destruct (Hin i Hi) as (q & _ & _ & Ho).
  exists m'. eexists. split; [done|]. split; [exact Ho|].
  apply classify_cases.
Qed.

End Roomy_entries.

(** X8.  On buffers longer than the counts say, each entry point classifies
    the first [N_points_xy] points against the first [N_vertices] vertices,
    stores the results in the first [N_points_xy] slots, and leaves every
    later slot of the output, and both input buffers, as they were. *)
Theorem batch_keeps_slots_beyond_count :
  keeps_slots_beyond_count PointsInsidePolygon
  ∧ keeps_slots_beyond_count PointsInsidePolygonF
  ∧ keeps_slots_beyond_count PointsInsidePolygonInt.
Proof. repeat split; apply PointsInside_keeps_slots. Qed.

Lemma batch_keeps_slots_beyond_count_witness :
  ∃ m', PointsInsidePolygonInt 4 2 2 memory_roomy = Some m'
    ∧ vertices m' = vertices memory_roomy
    ∧ points_xy m' = points_xy memory_roomy
    ∧ length (output m') = 5%nat
    ∧ stores m' = [0; 1]%nat
    ∧ (∀ i : nat, (i < 2)%nat →
         ∃ point r,
           as_points (points_xy memory_roomy) !! i = Some point
           ∧ _InsidePolygonInt (as_points (vertices memory_roomy)) 4 point 2
             = Some r
           ∧ output m' !! i = Some r)
    ∧ (∀ i : nat, (2 ≤ i)%nat → output m' !! i = [7; 7; 7; 7; 7] !! i).
Proof.
  refine (proj2 (proj2 batch_keeps_slots_beyond_count) 4 2 2 memory_roomy _).
  unfold fits. simpl. lia.
Defined.

(** X9.  With a point count of zero or less each entry point returns at
    once: nothing is read, nothing is stored, whatever the buffers hold. *)
Theorem batch_empty_is_noop :
  empty_batch_is_noop PointsInsidePolygon
  ∧ empty_batch_is_noop PointsInsidePolygonF
  ∧ empty_batch_is_noop PointsInsidePolygonInt.
Proof. repeat split; apply PointsInside_empty. Qed.

Lemma batch_empty_is_noop_witness :
  PointsInsidePolygon 4 (-1) 2 memory_double = Some memory_double
  ∧ PointsInsidePolygonInt 0 0 2 (mkMemory [] [] [] []) = Some (mkMemory [] [] [] []).
Proof.
  split.
  - refine (proj1 batch_empty_is_noop 4 (-1) 2 memory_double _). lia.
  - refine (proj2 (proj2 batch_empty_is_noop) 0 0 2 (mkMemory [] [] [] []) _).
    lia.
Defined.

(** X10.  Two border values that agree modulo 256 give the same call, on
    any buffers: the entry points see the border value only through its
    low byte. *)
Theorem batch_border_modulo_256 :
  border_modulo_256 PointsInsidePolygon
  ∧ border_modulo_256 PointsInsidePolygonF
  ∧ border_modulo_256 PointsInsidePolygonInt.
Proof. repeat split; apply PointsInside_border_modulo. Qed.

(** X11.  The slot of a point that sits on none of the [N_vertices]
    vertices holds the same byte whatever border value the call is given. *)
Theorem batch_border_reaches_vertex_slots_only :
  border_reaches_vertex_slots_only PointsInsidePolygon
  ∧ border_reaches_vertex_slots_only PointsInsidePolygonF
  ∧ border_reaches_vertex_slots_only PointsInsidePolygonInt.
Proof. repeat split; apply PointsInside_border_reach. Qed.

Lemma batch_border_reaches_vertex_slots_only_witness :
  ∃ m1 m2 r,
    PointsInsidePolygon 4 3 2 memory_double = Some m1
    ∧ PointsInsidePolygon 4 3 200 memory_double = Some m2
    ∧ output m1 !! 0%nat = Some r
    ∧ output m2 !! 0%nat = Some r.
Proof.
  refine (proj1 batch_border_reaches_vertex_slots_only 4 3 2 200
            memory_double 0%nat (pt 5 5) _ _ eq_refl _).
  - unfold fits. simpl. lia.
  - simpl. lia.
  - apply no_vertex_hit. reflexivity.
Defined.

(** X12.  Calling an entry point a second time on what the first call left
    changes no byte of the output. *)
Theorem batch_repeatable :
  repeatable PointsInsidePolygon
  ∧ repeatable PointsInsidePolygonF
  ∧ repeatable PointsInsidePolygonInt.
Proof. repeat split; apply PointsInside_repeatable. Qed.

Lemma batch_repeatable_witness :
  ∃ m' m'',
    PointsInsidePolygonInt 4 2 2 memory_roomy = Some m'
    ∧ PointsInsidePolygonInt 4 2 2 m' = Some m''
    ∧ output m'' = output m'.
Proof.
  refine (proj2 (proj2 batch_repeatable) 4 2 2 memory_roomy _).
  unfold fits. simpl. lia.
Defined.

(** X13.  One call on two runs of points laid end to end stores the bytes
    that two calls, one on each run with its own part of the output, store:
    the slots are computed independently of one another. *)
Theorem batch_splits :
  splits PointsInsidePolygon
  ∧ splits PointsInsidePolygonF
  ∧ splits PointsInsidePolygonInt.
Proof. repeat split; apply PointsInside_splits. Qed.

Lemma batch_splits_witness :
  ∃ m m1 m2,
    PointsInsidePolygonInt 4 3 2
      (mkMemory square_buffer ([5; 5] ++ [15; 5; 0; 0]) ([7] ++ [7; 7]) [])
    = Some m
    ∧ PointsInsidePolygonInt 4 1 2 (mkMemory square_buffer [5; 5] [7] [])
      = Some m1
    ∧ PointsInsidePolygonInt 4 2 2
        (mkMemory square_buffer [15; 5; 0; 0] [7; 7] []) = Some m2
    ∧ output m = output m1 ++ output m2.
Proof.
  refine (proj2 (proj2 batch_splits) 4 2 square_buffer [5; 5] [15; 5; 0; 0]
            [7] [7; 7] [] 1%nat 2%nat _ _ eq_refl eq_refl eq_refl eq_refl).
  - lia.
  - simpl. lia.
Defined.

(** X14.  Every byte an entry point stores is [INSIDE], [OUTSIDE] or the
    border value modulo 256. *)
Theorem batch_stores_sentinel_or_border :
  stores_sentinel_or_border PointsInsidePolygon
  ∧ stores_sentinel_or_border PointsInsidePolygonF
  ∧ stores_sentinel_or_border PointsInsidePolygonInt.
Proof. repeat split; apply PointsInside_stores_sentinel. Qed.

Lemma batch_stores_sentinel_or_border_witness :
  ∃ m' r,
    PointsInsidePolygonF 4 3 257 memory_float = Some m'
    ∧ output m' !! 2%nat = Some r
    ∧ (r = INSIDE ∨ r = OUTSIDE ∨ r = 257 mod 256).
Proof.
  refine (proj1 (proj2 batch_stores_sentinel_or_border) 4 3 257 memory_float
            2%nat _ _).
  - unfold fits. simpl. lia.
  - simpl. lia.
Defined.

(** X15.  A polygon of a single vertex contains nothing: a point on the
    vertex gets the border value, every other point is [OUTSIDE]. *)
Theorem single_vertex_polygon {C : Type} `{Coord C} (v : Point)
    (p : PointOf C) (border_value : Z) :
  _INSIDE_POLYGON [v] 1 p border_value
  = Some (if on_vertex v p then border_value else OUTSIDE).
Proof.
  change 1 with (Z.of_nat (length [v])).
  rewrite inside_polygon_classify by done.
  unfold classify, hits_vertex, crossings, crossings_in.
  rewrite (edges_cons v []).
  cbn [existsb app zip_with fmap list_fmap sum_list_with fst snd].
  rewrite orb_false_r, crosses_self. done.
Qed.
